(** * flask-api: the ORM mixin, the authentication resource and the
      fixture helpers, embedded as Rocq functions.

    - [Py]       the Python values, exceptions and the state/exception monad
                 the embedded functions live in;
    - [Resource] [src/mixins/resource.py] (class [ResourceMixin]);
    - [Auth]     [src/resources/auth.py] (class [AuthView]);
    - [Conftest] [src/tests/conftest.py] (date helpers and seeding fixtures);
    - [ResourceSpec], [AuthSpec], [ConftestSpec] the properties of each;
    - [ResourceMore], [AuthMore], [ConftestMore] further properties.

    The definitions come first, the properties after them. *)

From stdpp Require Import base option list strings pretty gmap fin_maps.
From Stdlib Require Import ZArith Lia.

#[local] Set Warnings "-register-all".

Local Open Scope string_scope.
Local Open Scope Z_scope.

(** ** Python values, exceptions, and effects *)

Module Py.

(** The values the handlers build and return: [None], integers, strings,
    tuples and dict literals (in the order they are written). *)
Inductive value : Type :=
| VNone
| VInt (n : Z)
| VStr (s : string)
| VTuple (items : list value)
| VDict (entries : list (string * value)).

Definition value_eq_dec : ∀ a b : value, {a = b} + {a ≠ b}.
Proof.
  fix IH 1. intros a b. decide equality.
  - apply Z.eq_dec.
  - apply String.string_dec.
  - apply (List.list_eq_dec IH).
  - apply List.list_eq_dec. decide equality. apply String.string_dec.
Defined.

#[global] Instance value_eq_decision : EqDecision value := value_eq_dec.

(** The exceptions that occur. [KeyboardInterrupt] and [SystemExit] derive
    from [BaseException] only; the others derive from [Exception]. *)
Inductive exn : Type :=
| ValidationError (messages : value)
| BadRequest
| KeyError (key : string)
| TypeError (msg : string)
| AttributeError (msg : string)
| RecursionError
| RuntimeError (msg : string)
| KeyboardInterrupt
| SystemExit.

Inductive outcome (A : Type) : Type :=
| Return (a : A)
| Raise (e : exn).
Arguments Return {A} a.
Arguments Raise {A} e.

(** A computation over a state [S]: it ends with a value or with a raised
    exception, and in both cases leaves a state behind. *)
Definition M (S A : Type) : Type := S → outcome A * S.

Definition ret {S A} (a : A) : M S A := λ s, (Return a, s).

Definition raise {S A} (e : exn) : M S A := λ s, (Raise e, s).

Definition bind {S A B} (m : M S A) (k : A → M S B) : M S B :=
  λ s, match m s with
       | (Return a, s') => k a s'
       | (Raise e, s') => (Raise e, s')
       end.

(** [try: body / except <clause>: handler]. The clause is a partial
    function: [None] on an exception it does not match, which then
    propagates. The state reached when the exception was raised is kept. *)
Definition try_except {S A} (body : M S A) (clause : exn → option (M S A))
  : M S A :=
  λ s, match body s with
       | (Return a, s') => (Return a, s')
       | (Raise e, s') =>
           match clause e with
           | Some handler => handler s'
           | None => (Raise e, s')
           end
       end.

(** A bare [except:] matches every exception, [BaseException] included. *)
Definition bare_except {S A} (handler : M S A) : exn → option (M S A) :=
  λ _, Some handler.

Definition get {S} : M S S := λ s, (Return s, s).
Definition put {S} (s : S) : M S unit := λ _, (Return tt, s).
Definition modify {S} (f : S → S) : M S unit := λ s, (Return tt, f s).

(** Lifting of a pure step that may raise. *)
Definition lift {S A} (o : outcome A) : M S A := λ s, (o, s).

Definition raised {A} (o : outcome A) : bool :=
  match o with Return _ => false | Raise _ => true end.

(** [for x in l: body(x)] *)
Fixpoint for_each {S A} (l : list A) (body : A → M S unit) : M S unit :=
  match l with
  | [] => ret tt
  | x :: l' => bind (body x) (λ _, for_each l' body)
  end.

End Py.

Import Py.

Declare Scope py_scope.
Delimit Scope py_scope with py.
Notation "'let*' x := m 'in' k" := (bind m (λ x, k))
  (at level 10, x name, m at level 100, k at level 200) : py_scope.
Notation "m >> k" := (bind m (λ _, k))
  (at level 90, right associativity) : py_scope.
Local Open Scope py_scope.

(** ** src/mixins/resource.py *)

Module Resource.

(** What [sort_by] reads of a model class: the keys of
    [cls.__table__.columns]. *)
Record model_class : Type := { table_columns : list string }.

(** [ResourceMixin.sort_by] *)
Definition sort_by (cls : model_class) (field direction : string)
  : string * string :=
  let field :=
    if bool_decide (field ∉ table_columns cls) then "created_at" else field in
  let direction :=
    if bool_decide (direction ∉ ["asc"; "desc"]) then "asc" else direction in
  (field, direction).

(** An id as the bulk actions receive it: an int or a str. *)
Inductive atom : Type :=
| AInt (n : Z)
| AStr (s : string).

#[global] Instance atom_eq_dec : EqDecision atom.
Proof. solve_decision. Defined.

(** The builtin [str] on ids: the decimal digits of an int, a str as is. *)
Definition str (a : atom) : atom :=
  match a with
  | AInt n => AStr (pretty n)
  | AStr s => AStr s
  end.

(** [a == b]: an int never equals a str. *)
Definition py_eq (a b : atom) : bool := bool_decide (a = b).

(** A Python 3 [map] object: a one-shot iterator that applies [map_fun]
    to the items of [map_src] not yet consumed. *)
Record map_object : Type := { map_fun : atom → atom; map_src : list atom }.

Definition py_map (f : atom → atom) (l : list atom) : map_object :=
  {| map_fun := f; map_src := l |}.

(** A [map] object defines neither [__bool__] nor [__len__]: it is true. *)
Definition truthy (it : map_object) : bool := true.

(** [x in it] on an iterator: draw items until one equals [x] or the
    iterator is exhausted; the items drawn are gone. *)
Fixpoint iter_contains_from (f : atom → atom) (x : atom) (src : list atom)
  : bool * list atom :=
  match src with
  | [] => (false, [])
  | y :: src' =>
      if py_eq x (f y) then (true, src') else iter_contains_from f x src'
  end.

Definition iter_contains (x : atom) (it : map_object) : bool * map_object :=
  let '(found, rest) := iter_contains_from (map_fun it) x (map_src it) in
  (found, {| map_fun := map_fun it; map_src := rest |}).

(** [[id for id in ids if id not in omit_ids]], the iterator threaded
    through the membership tests. *)
Fixpoint keep_not_in (ids : list atom) (omit_ids : map_object) : list atom :=
  match ids with
  | [] => []
  | id :: ids' =>
      let '(found, omit_ids') := iter_contains id omit_ids in
      if negb found then id :: keep_not_in ids' omit_ids'
      else keep_not_in ids' omit_ids'
  end.

(** [ResourceMixin.get_bulk_action_ids] *)
Definition get_bulk_action_ids (ids omit_ids : list atom) : list atom :=
  let omit_ids := py_map str omit_ids in
  if truthy omit_ids then keep_not_in ids omit_ids else ids.

(** A row of the model's table: its primary key [id] and its other
    columns. *)
Record row : Type := { row_id : Z; row_data : gmap string value }.

Definition loc : Type := positive.

(** A model instance loaded in the session: the primary key of its row;
    what [getattr] sees; the values of its table columns as the last flush
    (or the load) left them; and the attributes [hasattr] sees but
    [setattr] refuses ([__class__], a property without a setter), with the
    exception the refusal raises. An attribute may be in both: a property
    without a setter reads a value and refuses assignment. *)
Record instance : Type := {
  identity : Z;
  attrs : gmap string value;
  flushed : gmap string value;
  refuses : gmap string exn
}.

(** The calls the mixin makes on the query and on the session. *)
Inductive stmt : Type :=
| DeleteWhereIdIn (ids : list Z)
| Commit.

(** The table of the model class, the instances of the session by object
    identity, the calls made so far, what [tzware_datetime()] (declared
    outside this file) returns when called, and the form in which each
    column stores a value and gives it back (a timestamp column without
    time zone drops the offset of an aware time); that form depends on the
    column types and the driver, which are outside this file. *)
Record db : Type := {
  table : list row;
  objects : gmap loc instance;
  executed : list stmt;
  clock : value;
  stored : string → value → value
}.

(** A column of the instance whose value differs from the one last flushed:
    the flush writes it. *)
Definition changed (i : instance) (column : string) : bool :=
  bool_decide (is_Some (flushed i !! column)
               ∧ attrs i !! column ≠ flushed i !! column).

Definition dirty (i : instance) : bool :=
  bool_decide (map_Exists (λ column old, attrs i !! column ≠ Some old)
                          (flushed i)).

(** The SET clause of the UPDATE that the flush of a dirty instance issues:
    the changed columns, as stored, and the column [updated_at], declared
    with [onupdate=tzware_datetime], at the current time unless it is
    itself among the changed columns. *)
Definition writes (now : value) (st : string → value → value) (i : instance)
  : gmap string value :=
  let columns :=
    map_imap (λ column v, if changed i column then Some (st column v)
                          else None) (attrs i) in
  if bool_decide (is_Some (flushed i !! "updated_at"))
     && negb (changed i "updated_at")
  then <["updated_at" := st "updated_at" now]> columns
  else columns.

(** The flush of one instance, as the instance reads once the transaction
    is committed and its attributes are loaded again. An instance with no
    changed column is left alone. A dirty one reads what was written, as
    stored, in the columns written, and is then in step with its row. *)
Definition flush (now : value) (st : string → value → value) (i : instance)
  : instance :=
  if dirty i then
    let attrs' := writes now st i ∪ attrs i in
    {| identity := match writes now st i !! "id" with
                   | Some (VInt n) => n
                   | _ => identity i
                   end;
       attrs := attrs';
       flushed := filter (λ kv, is_Some (flushed i !! kv.1)) attrs';
       refuses := refuses i |}
  else i.

(** The dirty instance of the session, if any, that was loaded from the row
    with this primary key. *)
Definition pending (objs : gmap loc instance) (id : Z) : option instance :=
  head (filter (λ i, identity i = id ∧ dirty i = true)
               (map_to_list objs).*2).

(** The UPDATE of the flush as it reaches a row. *)
Definition write_row (now : value) (st : string → value → value)
    (objs : gmap loc instance) (r : row) : row :=
  match pending objs (row_id r) with
  | Some i => {| row_id := identity (flush now st i);
                 row_data := writes now st i ∪ row_data r |}
  | None => r
  end.

(** The flush of the session: the pending changes of its instances are
    written to their rows. *)
Definition flush_session : M db unit :=
  modify (λ s, {| table := write_row (clock s) (stored s) (objects s)
                             <$> table s;
                  objects := flush (clock s) (stored s) <$> objects s;
                  executed := executed s;
                  clock := clock s;
                  stored := stored s |}).

Definition issue (st : stmt) : M db unit :=
  modify (λ s, {| table := table s; objects := objects s;
                  executed := executed s ++ [st];
                  clock := clock s; stored := stored s |}).

(** [db.session.commit()]: the session is flushed and the transaction
    committed. The database is taken to accept what is written: no
    constraint is violated, the connection holds, and an instance with a
    change pending still has its row. *)
Definition commit : M db unit :=
  flush_session >> issue Commit.

(** [cls.query.filter(cls.id.in_(ids)).delete(synchronize_session=False)]:
    the session is flushed first (autoflush), then one DELETE statement is
    executed; its result is the number of rows matched. The instances of
    the session are not synchronized. *)
Definition query_filter_id_in_delete (ids : list Z) : M db nat :=
  flush_session >>
  let* s := get in
  let matched := filter (λ r, row_id r ∈ ids) (table s) in
  put {| table := filter (λ r, row_id r ∉ ids) (table s);
         objects := objects s;
         executed := executed s ++ [DeleteWhereIdIn ids];
         clock := clock s;
         stored := stored s |} >>
  ret (length matched).

(** [ResourceMixin.bulk_delete] *)
Definition bulk_delete (ids : list Z) : M db nat :=
  let* delete_count := query_filter_id_in_delete ids in
  commit >>
  ret delete_count.

Definition no_instance : instance :=
  {| identity := 0; attrs := ∅; flushed := ∅; refuses := ∅ |}.

Definition instance_of (s : db) (o : loc) : instance :=
  default no_instance (objects s !! o).

Definition with_attrs (i : instance) (a : gmap string value) : instance :=
  {| identity := identity i; attrs := a; flushed := flushed i;
     refuses := refuses i |}.

(** [hasattr(o, key)] *)
Definition hasattr (o : loc) (key : string) : M db bool :=
  let* s := get in
  ret (bool_decide (is_Some (attrs (instance_of s o) !! key)
                    ∨ is_Some (refuses (instance_of s o) !! key))).

(** [setattr(o, key, v)]: raises on an attribute that refuses
    assignment. *)
Definition setattr (o : loc) (key : string) (v : value) : M db unit :=
  let* s := get in
  match refuses (instance_of s o) !! key with
  | Some e => raise e
  | None =>
      put {| table := table s;
             objects :=
               <[o := with_attrs (instance_of s o)
                        (<[key := v]> (attrs (instance_of s o)))]>
                 (objects s);
             executed := executed s;
             clock := clock s;
             stored := stored s |}
  end.

(** The body of the loop of [update]. *)
Definition update_step (self : loc) (key : string) (v : value) : M db unit :=
  let* has := hasattr self key in
  if has then setattr self key v else ret tt.

(** [ResourceMixin.update]. [values] is the dict as [values.items()] goes
    through it: its items in insertion order, the keys all different. The
    loop, the commit, and the instance itself as the result. *)
Definition update (self : loc) (values : list (string * value))
  : M db loc :=
  for_each values (λ item, update_step self item.1 item.2) >>
  commit >>
  ret self.

(** *** Vocabulary of the properties of the mixin *)

Definition machine_model : model_class :=
  {| table_columns := ["id"; "name"; "created_at"; "updated_at"] |}.

Definition with_objects (s : db) (objs : gmap loc instance) : db :=
  {| table := table s; objects := objs; executed := executed s;
     clock := clock s; stored := stored s |}.

(** The table as the flush of the session leaves it. *)
Definition written (s : db) : list row :=
  write_row (clock s) (stored s) (objects s) <$> table s.

(** No instance of the session has a change pending. *)
Definition clean_session (s : db) : Prop :=
  ∀ o i, objects s !! o = Some i → dirty i = false.

(** The attributes after the loop: an attribute the instance has takes the
    value [values] gives it, if any; nothing is added. *)
Definition assigned (obj values : gmap string value) (key : string)
  : option value :=
  match obj !! key with
  | Some old => Some (default old (values !! key))
  | None => None
  end.


(** Timestamp columns without time zone: an aware time is stored without
    its offset; every other value is stored as given. *)
Definition sample_stored (column : string) (v : value) : value :=
  match v with
  | VStr t =>
      if bool_decide (column = "created_at" ∨ column = "updated_at")
      then VStr (String.substring 0 19 t)
      else v
  | _ => v
  end.

(** A machine model as loaded, last updated in January, with the attribute
    [__class__] every object has, and a session that holds it while the
    clock reads a day in November. *)
Definition loaded_machine_model (name : string) : instance :=
  let columns : gmap string value :=
    {[ "id" := VInt 3; "name" := VStr name;
       "created_at" := VStr "2026-01-01T08:00:00";
       "updated_at" := VStr "2026-01-01T08:00:00" ]} in
  {| identity := 3; attrs := columns; flushed := columns;
     refuses := {[ "__class__" :=
                     TypeError "__class__ must be set to a class, not an int" ]} |}.

Definition machine_model_row (id : Z) (name : string) : row :=
  {| row_id := id;
     row_data := {[ "id" := VInt id; "name" := VStr name;
                    "created_at" := VStr "2026-01-01T08:00:00";
                    "updated_at" := VStr "2026-01-01T08:00:00" ]} |}.

Definition sample_db : db :=
  {| table := [machine_model_row 3 "press"; machine_model_row 4 "saw"];
     objects := {[ 7%positive := loaded_machine_model "press" ]};
     executed := [];
     clock := VStr "2026-11-04T09:30:00+09:00";
     stored := sample_stored |}.


End Resource.

(** ** src/resources/auth.py *)

Module Auth.

(** [LoginSchema] is declared outside this file; the view uses its [load],
    which returns the validated data or raises. *)
Record schema : Type := { load : value → outcome value }.

(** The calls the view makes on [authentication_manager]. *)
Inductive call : Type :=
| Login (data : value)
| RevokeToken (jti : value).

(** [AuthenticationManager] is declared outside this file: any
    implementation over a state [T] of its own. *)
Record authentication_manager (T : Type) : Type := {
  am_login : value → M T value;
  am_revoke_token : value → M T value
}.
Arguments am_login {T} _ _.
Arguments am_revoke_token {T} _ _.

(** What a handler can touch: the manager's state, and the record of the
    calls made on the manager. *)
Record world (T : Type) : Type := { manager : T; calls : list call }.
Arguments manager {T} _.
Arguments calls {T} _.
Arguments Build_world {T} _ _.

(** A call on the manager: recorded, then run on the manager's state. *)
Definition invoke {T A} (c : call) (m : M T A) : M (world T) A :=
  λ w, let '(o, t') := m (manager w) in
       (o, {| manager := t'; calls := calls w ++ [c] |}).

(** The request context of a handler: what [request.get_json()] gives,
    the parsed payload or the exception for a body that is not JSON, and
    the decoded token behind [get_jwt()]. *)
Record request : Type := {
  get_json : outcome value;
  get_jwt : gmap string value
}.

(** [d[key]] on a dict *)
Definition subscript {S} (d : gmap string value) (key : string) : M S value :=
  match d !! key with
  | Some v => ret v
  | None => raise (KeyError key)
  end.

Section view.
Context {T : Type}.
Variable login_schema : schema.
Variable manager_impl : authentication_manager T.

(** [AuthView.login]. The [try] covers the [load] alone; its [except]
    clause names [ValidationError] and returns from the handler. *)
Definition login (req : request) : M (world T) value :=
  let* json_data := lift (get_json req) in
  let* loaded :=
    try_except
      (let* data := lift (load login_schema json_data) in ret (inr data))
      (λ e, match e with
            | ValidationError messages =>
                Some (ret (inl (VTuple [VDict [("errors", messages)];
                                        VInt 422])))
            | _ => None
            end) in
  match loaded with
  | inl response => ret response
  | inr data => invoke (Login data) (am_login manager_impl data)
  end.

(** [AuthView.reset_password_request] *)
Definition reset_password_request (req : request) : M (world T) value :=
  ret VNone.

(** [AuthView.reset_password] *)
Definition reset_password (token : string) (req : request)
  : M (world T) value :=
  ret VNone.

(** [AuthView.access_token_revoke] *)
Definition access_token_revoke (req : request) : M (world T) value :=
  let* jti := subscript (get_jwt req) "jti" in
  try_except
    (invoke (RevokeToken jti) (am_revoke_token manager_impl jti) >>
     ret (VDict [("message", VStr "Access token has been revoked")]))
    (bare_except
       (ret (VTuple [VDict [("message", VStr "Something went wrong")];
                     VInt 500]))).

(** [AuthView.refresh_token_revoke] *)
Definition refresh_token_revoke (req : request) : M (world T) value :=
  let* jti := subscript (get_jwt req) "jti" in
  try_except
    (invoke (RevokeToken jti) (am_revoke_token manager_impl jti) >>
     ret (VDict [("message", VStr "Access token has been revoked")]))
    (bare_except
       (ret (VTuple [VDict [("message", VStr "Something went wrong")];
                     VInt 500]))).

End view.

(** The HTTP status the web framework gives a handler's return value: the
    second item of a [(body, status)] tuple, 200 for a bare body. *)
Definition status_code (rv : value) : Z :=
  match rv with
  | VTuple [_; VInt status] => status
  | _ => 200
  end.

(** *** Vocabulary of the properties of the view, and a sample run *)

(** A schema and a manager to run the handlers on: the schema accepts an
    object with an email and a password; the manager hands out one token
    pair and keeps the list of revoked token ids, refusing a token without
    an id. *)
Definition sample_schema : schema :=
  {| load := λ json,
       match json with
       | VDict [("email", VStr _); ("password", VStr _)] => Return json
       | _ => Raise (ValidationError
                       (VDict [("_schema", VTuple [VStr "Invalid input type."])]))
       end |}.

Definition sample_tokens : value :=
  VDict [("access_token", VStr "eyJ.a"); ("refresh_token", VStr "eyJ.r")].

Definition sample_manager : authentication_manager (list value) :=
  {| am_login := λ _, ret sample_tokens;
     am_revoke_token := λ jti,
       match jti with
       | VNone => raise (RuntimeError "token has no id")
       | _ => modify (cons jti) >> ret VNone
       end |}.

Definition fresh_world : world (list value) := {| manager := []; calls := [] |}.

Definition request_of (json : value) (token : gmap string value) : request :=
  {| get_json := Return json; get_jwt := token |}.

Definition revoked_body : value :=
  VDict [("message", VStr "Access token has been revoked")].

Definition went_wrong : value :=
  VTuple [VDict [("message", VStr "Something went wrong")]; VInt 500].

(** A manager that rejects every login with a [ValidationError] of its own
    and whose [revoke_token] notes the token id and then fails. *)
Definition strict_manager : authentication_manager (list value) :=
  {| am_login := λ _, raise (ValidationError (VStr "Invalid credentials"));
     am_revoke_token := λ jti,
       modify (cons jti) >> raise (RuntimeError "store is down") |}.

End Auth.

(** ** src/tests/conftest.py *)

Module Conftest.

Record date : Type := { year : nat; month : nat; day : nat }.

Definition zero_pad (width n : nat) : string :=
  let digits := pretty n in
  String.concat "" (replicate (width - String.length digits) "0") +:+ digits.

(** [d.strftime("%Y-%m-%d")] *)
Definition strftime (d : date) : string :=
  zero_pad 4 (year d) +:+ "-" +:+ zero_pad 2 (month d) +:+ "-"
  +:+ zero_pad 2 (day d).

(** [a <= b] on dates *)
Definition date_le (a b : date) : bool :=
  if decide (year a = year b) then
    if decide (month a = month b) then bool_decide (day a ≤ day b)%nat
    else bool_decide (month a < month b)%nat
  else bool_decide (year a < year b)%nat.

(** The rows of the two measurement tables, with the columns the fixtures
    fill in, and the rows the fixtures read. *)
Record rotation : Type := {
  rotation_date : string;
  shaft_a_normal_rotation : Z;
  shaft_a_reverse_rotation : Z;
  rotation_customer_machine_id : Z
}.

Record operating_time : Type := {
  operating_time_date : string;
  duration : Z;
  operating_time_customer_machine_id : Z
}.

Record customer_machine : Type := { machine_id : Z; customer_id : Z }.

Record user : Type := { user_id : Z }.

(** The database behind the session, and how many values have been drawn
    from Faker and from [random] so far. *)
Record world : Type := {
  customers : list user;
  customer_machines : list customer_machine;
  rotation_table : list rotation;
  operating_time_table : list operating_time;
  fake_drawn : nat;
  random_drawn : nat
}.

(** What a run depends on and does not control: the clock, the dates Faker
    hands out for a range (the [k]-th draw), the integers [random] hands
    out. *)
Record env : Type := {
  today : date;
  fake_date_between : date → date → nat → date;
  random_int : nat → Z
}.

Definition with_rotation_table (w : world) (t : list rotation) : world :=
  {| customers := customers w; customer_machines := customer_machines w;
     rotation_table := t; operating_time_table := operating_time_table w;
     fake_drawn := fake_drawn w; random_drawn := random_drawn w |}.

Definition with_operating_time_table (w : world) (t : list operating_time)
  : world :=
  {| customers := customers w; customer_machines := customer_machines w;
     rotation_table := rotation_table w; operating_time_table := t;
     fake_drawn := fake_drawn w; random_drawn := random_drawn w |}.

Definition with_fake_drawn (w : world) (k : nat) : world :=
  {| customers := customers w; customer_machines := customer_machines w;
     rotation_table := rotation_table w;
     operating_time_table := operating_time_table w;
     fake_drawn := k; random_drawn := random_drawn w |}.

Definition with_random_drawn (w : world) (k : nat) : world :=
  {| customers := customers w; customer_machines := customer_machines w;
     rotation_table := rotation_table w;
     operating_time_table := operating_time_table w;
     fake_drawn := fake_drawn w; random_drawn := k |}.

(** [fake.date_between(from_date, to_date)]: the next draw. *)
Definition date_between (E : env) (from_date to_date : date) : M world date :=
  let* w := get in
  put (with_fake_drawn w (S (fake_drawn w))) >>
  ret (fake_date_between E from_date to_date (fake_drawn w)).

(** [random.randrange(start, stop)]: the next draw, brought into
    [start <= n < stop]. *)
Definition randrange (E : env) (start stop : Z) : M world Z :=
  let* w := get in
  put (with_random_drawn w (S (random_drawn w))) >>
  ret (start + random_int E (random_drawn w) `mod` (stop - start)).

(** Modelled from the spec: [RotationService.is_exists], which is not under
    src/. The spec has the (date, machine) pair unique per measurement type
    through a pre-insert existence check: the check is whether the rotation
    table holds a row with this date and this machine. *)
Definition RotationService_is_exists (date : string) (machine : Z)
  : M world bool :=
  let* w := get in
  ret (existsb (λ r, bool_decide (rotation_date r = date
                                  ∧ rotation_customer_machine_id r = machine))
               (rotation_table w)).

(** Modelled from the spec: [RotationService.create], which is not under
    src/: the record is inserted into the rotation table. *)
Definition RotationService_create (data : rotation) : M world unit :=
  modify (λ w, with_rotation_table w (rotation_table w ++ [data])).

(** Modelled from the spec: [OperatingTimeService.is_exists], which is not
    under src/; as for rotations, on the operating-time table. *)
Definition OperatingTimeService_is_exists (date : string) (machine : Z)
  : M world bool :=
  let* w := get in
  ret (existsb (λ r, bool_decide (operating_time_date r = date
                                  ∧ operating_time_customer_machine_id r
                                    = machine))
               (operating_time_table w)).

(** Modelled from the spec: [OperatingTimeService.create], which is not
    under src/: the record is inserted into the operating-time table. *)
Definition OperatingTimeService_create (data : operating_time) : M world unit :=
  modify (λ w, with_operating_time_table w (operating_time_table w ++ [data])).

(** Modelled from the spec: [UserService.get_all_customers], which is not
    under src/: the users that are customers. *)
Definition UserService_get_all_customers : M world (list user) :=
  let* w := get in ret (customers w).

(** [CustomerMachine.query.filter(CustomerMachine.customer_id == id)] *)
Definition CustomerMachine_query_filter (id : Z)
  : M world (list customer_machine) :=
  let* w := get in
  ret (filter (λ m, customer_id m = id) (customer_machines w)).

(** [_get_random_date] *)
Definition _get_random_date (E : env) : M world date :=
  let from_date := {| year := year (today E); month := 1; day := 1 |} in
  let to_date := {| year := year (today E); month := month (today E);
                    day := day (today E) |} in
  date_between E from_date to_date.

(** [_get_rotation_date]. [depth] is the number of nested calls the
    interpreter still allows: the call that would exceed it raises
    [RecursionError]. *)
Fixpoint _get_rotation_date (E : env) (depth : nat) (machine : Z)
  : M world string :=
  match depth with
  | O => raise RecursionError
  | S depth' =>
      let* d := _get_random_date E in
      let date := strftime d in
      let* taken := RotationService_is_exists date machine in
      if taken then
        let* date := _get_rotation_date E depth' machine in
        ret date
      else ret date
  end.

(** [_get_operating_time_date], with [depth] as above. *)
Fixpoint _get_operating_time_date (E : env) (depth : nat) (machine : Z)
  : M world string :=
  match depth with
  | O => raise RecursionError
  | S depth' =>
      let* d := _get_random_date E in
      let date := strftime d in
      let* taken := OperatingTimeService_is_exists date machine in
      if taken then
        let* date := _get_operating_time_date E depth' machine in
        ret date
      else ret date
  end.

(** The fixture [rotations] *)
Definition rotations (E : env) (depth : nat) : M world unit :=
  let* customers := UserService_get_all_customers in
  for_each customers (λ customer,
    let* machines := CustomerMachine_query_filter (user_id customer) in
    for_each machines (λ machine,
      for_each (seq 0 10) (λ i,
        let* date := _get_rotation_date E depth (machine_id machine) in
        let* normal := randrange E 200 600 in
        let* reverse := randrange E 200 600 in
        RotationService_create
          {| rotation_date := date;
             shaft_a_normal_rotation := normal;
             shaft_a_reverse_rotation := reverse;
             rotation_customer_machine_id := machine_id machine |}))).

(** The fixture [operating_times] *)
Definition operating_times (E : env) (depth : nat) : M world unit :=
  let* customers := UserService_get_all_customers in
  for_each customers (λ customer,
    let* machines := CustomerMachine_query_filter (user_id customer) in
    for_each machines (λ machine,
      for_each (seq 0 10) (λ i,
        let* date := _get_operating_time_date E depth (machine_id machine) in
        let* duration := randrange E 10000 50000 in
        OperatingTimeService_create
          {| operating_time_date := date;
             duration := duration;
             operating_time_customer_machine_id := machine_id machine |}))).

(** *** Vocabulary of the properties of the fixtures, and sample runs *)

Definition from_date (E : env) : date :=
  {| year := year (today E); month := 1; day := 1 |}.

Definition to_date (E : env) : date :=
  {| year := year (today E); month := month (today E); day := day (today E) |}.

(** The date string of the [k]-th draw after those already made in [w]. *)
Definition drawn (E : env) (w : world) (k : nat) : string :=
  strftime (fake_date_between E (from_date E) (to_date E) (fake_drawn w + k)).

Definition rotation_key (r : rotation) : string * Z :=
  (rotation_date r, rotation_customer_machine_id r).

Definition operating_time_key (r : operating_time) : string * Z :=
  (operating_time_date r, operating_time_customer_machine_id r).

Definition rotation_taken (w : world) (date : string) (machine : Z) : bool :=
  existsb (λ r, bool_decide (rotation_date r = date
                             ∧ rotation_customer_machine_id r = machine))
          (rotation_table w).

Definition operating_time_taken (w : world) (date : string) (machine : Z)
  : bool :=
  existsb (λ r, bool_decide (operating_time_date r = date
                             ∧ operating_time_customer_machine_id r = machine))
          (operating_time_table w).

Definition in_range (E : env) (d : date) : bool :=
  date_le (from_date E) d && date_le d (to_date E).

(** [after] is [before] with rows appended whose keys differ from one
    another and from every key of [before]. *)
Definition seeded_unique {R K : Type} (key : R → K) (before after : list R)
  : Prop :=
  ∃ seeded, after = (before ++ seeded)%list
            ∧ NoDup (key <$> seeded)
            ∧ ∀ r, r ∈ seeded → key r ∉ key <$> before.

(** What [rotations] keeps true of the world it started in. *)
Definition rotations_inv (w0 w : world) : Prop :=
  seeded_unique rotation_key (rotation_table w0) (rotation_table w)
  ∧ operating_time_table w = operating_time_table w0
  ∧ customers w = customers w0
  ∧ customer_machines w = customer_machines w0.

Definition operating_times_inv (w0 w : world) : Prop :=
  seeded_unique operating_time_key
    (operating_time_table w0) (operating_time_table w)
  ∧ rotation_table w = rotation_table w0
  ∧ customers w = customers w0
  ∧ customer_machines w = customer_machines w0.

(** A run in which the free date is never drawn: on the second of January
    Faker keeps returning the first, and machine 10 has its records of the
    first already. *)
Definition stuck_env : env :=
  {| today := {| year := 2026; month := 1; day := 2 |};
     fake_date_between := λ from_date _ _, from_date;
     random_int := λ _, 0 |}.

Definition stuck_world : world :=
  {| customers := [ {| user_id := 1 |} ];
     customer_machines := [ {| machine_id := 10; customer_id := 1 |} ];
     rotation_table :=
       [ {| rotation_date := "2026-01-01"; shaft_a_normal_rotation := 200;
            shaft_a_reverse_rotation := 200;
            rotation_customer_machine_id := 10 |} ];
     operating_time_table :=
       [ {| operating_time_date := "2026-01-01"; duration := 10000;
            operating_time_customer_machine_id := 10 |} ];
     fake_drawn := 0;
     random_drawn := 0 |}.

(** A run to try the fixtures on: the fourth of November, a Faker that
    hands out every date twice in a row, two customers with three machines
    between them, and one rotation already recorded. *)
Definition sample_env : env :=
  {| today := {| year := 2026; month := 11; day := 4 |};
     fake_date_between := λ from_date _ k,
       {| year := year from_date;
          month := 1 + Nat.modulo (Nat.div (Nat.div k 2) 28) 10;
          day := 1 + Nat.modulo (Nat.div k 2) 28 |};
     random_int := λ k, Z.of_nat k * 7919 |}.

Definition sample_world : world :=
  {| customers := [ {| user_id := 1 |}; {| user_id := 2 |} ];
     customer_machines :=
       [ {| machine_id := 10; customer_id := 1 |};
         {| machine_id := 11; customer_id := 2 |};
         {| machine_id := 12; customer_id := 1 |} ];
     rotation_table :=
       [ {| rotation_date := "2026-01-01"; shaft_a_normal_rotation := 250;
            shaft_a_reverse_rotation := 300;
            rotation_customer_machine_id := 10 |} ];
     operating_time_table := [];
     fake_drawn := 0;
     random_drawn := 0 |}.

(** The machines the seeding fixtures visit, in order, each as often as it
    is seeded: customer by customer, the customer's machines, ten times
    each. *)
Definition visited (w : world) : list Z :=
  customers w ≫= λ customer,
    filter (λ m, customer_id m = user_id customer) (customer_machines w) ≫=
      λ machine, replicate 10 (machine_id machine).

(** The bounds the fixtures draw the measurements within. *)
Definition rotation_in_bounds (r : rotation) : Prop :=
  200 ≤ shaft_a_normal_rotation r < 600
  ∧ 200 ≤ shaft_a_reverse_rotation r < 600.

Definition operating_time_in_bounds (r : operating_time) : Prop :=
  10000 ≤ duration r < 50000.

(** [w] is [w0] after a fixture has appended rows for the machines [ids] to
    its table, every row within bounds, and touched nothing else but the
    numbers of draws. *)
Definition rotations_seeded (w0 : world) (ids : list Z) (w : world) : Prop :=
  ∃ seeded,
    rotation_table w = (rotation_table w0 ++ seeded)%list
    ∧ rotation_customer_machine_id <$> seeded = ids
    ∧ Forall rotation_in_bounds seeded
    ∧ operating_time_table w = operating_time_table w0
    ∧ customers w = customers w0
    ∧ customer_machines w = customer_machines w0.

Definition operating_times_seeded (w0 : world) (ids : list Z) (w : world)
  : Prop :=
  ∃ seeded,
    operating_time_table w = (operating_time_table w0 ++ seeded)%list
    ∧ operating_time_customer_machine_id <$> seeded = ids
    ∧ Forall operating_time_in_bounds seeded
    ∧ rotation_table w = rotation_table w0
    ∧ customers w = customers w0
    ∧ customer_machines w = customer_machines w0.

End Conftest.

(** * Properties *)

Module ResourceSpec.
Import Resource.

Example sort_by_known :
  sort_by {| table_columns := ["id"; "created_at"; "updated_at"; "name"] |}
          "name" "desc" = ("name", "desc").
Proof. reflexivity. Qed.

Example sort_by_unknown :
  sort_by {| table_columns := ["id"; "created_at"; "updated_at"; "name"] |}
          "password" "sideways" = ("created_at", "asc").
Proof. reflexivity. Qed.

Example get_bulk_action_ids_ints :
  get_bulk_action_ids [AInt 1; AInt 2; AInt 3] [AInt 2] = [AInt 1; AInt 2; AInt 3].
Proof. reflexivity. Qed.

Example get_bulk_action_ids_strs :
  get_bulk_action_ids [AStr "1"; AStr "2"; AStr "3"] [AInt 2; AInt 1]
  = [AStr "2"; AStr "3"].
Proof. vm_compute. reflexivity. Qed.

(** *** sort_by *)

Lemma sort_by_eq cls field direction :
  sort_by cls field direction =
    (if decide (field ∈ table_columns cls) then field else "created_at",
     if decide (direction = "asc" ∨ direction = "desc") then direction
     else "asc").
Proof.
  unfold sort_by. f_equal.
  - destruct (decide (field ∈ table_columns cls)) as [Hin|Hout].
    + rewrite bool_decide_eq_false_2; [done | by intros Hn].
    + by rewrite bool_decide_eq_true_2.
  - destruct (decide (direction = "asc" ∨ direction = "desc")) as [Hd|Hd].
    + rewrite bool_decide_eq_false_2; [done |].
      intros Hn. apply Hn.
      rewrite !elem_of_cons. destruct Hd as [-> | ->]; auto.
    + rewrite bool_decide_eq_true_2; [done |].
      rewrite !elem_of_cons, elem_of_nil. tauto.
Qed.

(** C1. [sort_by] returns the field as given when it is a column of the
    table and ['created_at'] in its place otherwise; it returns the
    direction as given when it is ['asc'] or ['desc'] and ['asc'] in its
    place otherwise. Hence the field returned is a column or
    ['created_at'], and the direction returned is ['asc'] or ['desc']. *)
Theorem sort_by_validates cls field direction :
  (field ∈ table_columns cls →
     (sort_by cls field direction).1 = field) ∧
  (field ∉ table_columns cls →
     (sort_by cls field direction).1 = "created_at") ∧
  (direction = "asc" ∨ direction = "desc" →
     (sort_by cls field direction).2 = direction) ∧
  (¬ (direction = "asc" ∨ direction = "desc") →
     (sort_by cls field direction).2 = "asc") ∧
  ((sort_by cls field direction).1 ∈ table_columns cls
     ∨ (sort_by cls field direction).1 = "created_at") ∧
  ((sort_by cls field direction).2 = "asc"
     ∨ (sort_by cls field direction).2 = "desc").
Proof.
  rewrite sort_by_eq. simpl.
  destruct (decide (field ∈ table_columns cls));
    destruct (decide (direction = "asc" ∨ direction = "desc"));
    repeat split; intros; try done; try tauto.
Qed.

Lemma sort_by_validates_witness :
  sort_by machine_model "name" "desc" = ("name", "desc") ∧
  sort_by machine_model "colour" "up" = ("created_at", "asc").
Proof.
  pose proof (sort_by_validates machine_model "name" "desc") as (H1 & _ & H2 & _).
  pose proof (sort_by_validates machine_model "colour" "up") as (_ & H3 & _ & H4 & _).
  split; apply injective_projections.
  - apply H1. vm_compute. repeat constructor.
  - apply H2. by right.
  - apply H3. unfold machine_model; simpl.
    rewrite !elem_of_cons, elem_of_nil. intros H; decompose [or] H; done.
  - apply H4. intros [?|?]; discriminate.
Defined.

(** *** get_bulk_action_ids *)

Lemma str_is_str a : ∃ s, str a = AStr s.
Proof. destruct a; eauto. Qed.

(** An int is never found among the items of [map(str, ...)], whatever is
    left of the iterator. *)
Lemma iter_contains_int n (it : map_object) :
  map_fun it = str → (iter_contains (AInt n) it).1 = false.
Proof.
  destruct it as [f src]; simpl; intros ->. unfold iter_contains; simpl.
  induction src as [|y src IH]; simpl; [done |].
  destruct (str_is_str y) as [s ->].
  unfold py_eq. rewrite bool_decide_eq_false_2 by discriminate.
  exact IH.
Qed.

Lemma iter_contains_fun x it : map_fun (iter_contains x it).2 = map_fun it.
Proof.
  unfold iter_contains.
  by destruct (iter_contains_from (map_fun it) x (map_src it)).
Qed.

Lemma keep_not_in_ints (ids : list Z) (it : map_object) :
  map_fun it = str → keep_not_in (AInt <$> ids) it = AInt <$> ids.
Proof.
  revert it. induction ids as [|n ids IH]; intros it Hf; simpl; [done |].
  pose proof (iter_contains_int n it Hf) as Hnot.
  pose proof (iter_contains_fun (AInt n) it) as Hfun.
  destruct (iter_contains (AInt n) it) as [found it']; simpl in *.
  subst found; simpl. f_equal. apply IH. congruence.
Qed.

(** C9. [omit_ids] is mapped through [str] before the filter, so on a list
    of integer ids and a list of integer [omit_ids] the result is [ids]
    itself: no integer is filtered out, not even one listed in
    [omit_ids]. *)
Theorem get_bulk_action_ids_ints_unchanged (ids omit_ids : list Z) :
  get_bulk_action_ids (AInt <$> ids) (AInt <$> omit_ids) = AInt <$> ids.
Proof. unfold get_bulk_action_ids; simpl. by apply keep_not_in_ints. Qed.

(** *** The flush *)


Lemma dirty_false_flush now st i : dirty i = false → flush now st i = i.
Proof. intros Hclean. unfold flush. by rewrite Hclean. Qed.




(** A flushed instance has no change pending. *)
Lemma flush_clean now st i : dirty (flush now st i) = false.
Proof.
  unfold flush. destruct (dirty i) eqn:Hdirty; [| done].
  apply bool_decide_eq_false. intros (column & old & Hold & Hne).
  simpl in *. apply map_lookup_filter_Some in Hold as [Hold _]. done.
Qed.

Lemma filter_none {A} (P : A → Prop) `{!∀ x, Decision (P x)} (l : list A) :
  (∀ x, x ∈ l → ¬ P x) → filter P l = [].
Proof.
  induction l as [|x l IH]; intros Hnone; [done |].
  rewrite filter_cons_False by (apply Hnone; left).
  apply IH. intros y Hy. apply Hnone. by right.
Qed.

Lemma filter_all {A} (P : A → Prop) `{!∀ x, Decision (P x)} (l : list A) :
  (∀ x, x ∈ l → P x) → filter P l = l.
Proof.
  induction l as [|x l IH]; intros Hall; [done |].
  rewrite filter_cons_True by (apply Hall; left).
  f_equal. apply IH. intros y Hy. apply Hall. by right.
Qed.

Lemma pending_clean objs id :
  (∀ o i, objs !! o = Some i → dirty i = false) → pending objs id = None.
Proof.
  intros Hclean. unfold pending.
  rewrite filter_none; [done |].
  intros i Hi [_ Hdirty].
  apply list_elem_of_fmap in Hi as ([o i'] & -> & Hin).
  apply elem_of_map_to_list in Hin. simpl in Hdirty.
  rewrite (Hclean o i' Hin) in Hdirty. done.
Qed.

Lemma written_clean s : clean_session s → written s = table s.
Proof.
  intros Hclean. unfold written.
  rewrite <- (list_fmap_id (table s)) at 2. apply list_fmap_ext.
  intros _ r _. unfold write_row. by rewrite pending_clean.
Qed.

Lemma flush_session_run s :
  flush_session s
  = (Return tt,
     {| table := written s;
        objects := flush (clock s) (stored s) <$> objects s;
        executed := executed s; clock := clock s; stored := stored s |}).
Proof. reflexivity. Qed.

Lemma flush_session_clean s :
  clean_session s → flush_session s = (Return tt, s).
Proof.
  intros Hclean. rewrite flush_session_run, written_clean by done.
  assert (flush (clock s) (stored s) <$> objects s = objects s) as ->.
  { apply map_eq. intros o. rewrite lookup_fmap.
    destruct (objects s !! o) as [i|] eqn:Hi; simpl; [| done].
    by rewrite dirty_false_flush by eauto. }
  by destruct s.
Qed.

Lemma flushed_session_clean now st (objs : gmap loc instance) o i :
  (flush now st <$> objs) !! o = Some i → dirty i = false.
Proof.
  rewrite lookup_fmap. destruct (objs !! o) as [i0|]; simpl; [| done].
  intros [= <-]. apply flush_clean.
Qed.

(** *** bulk_delete *)


(** [bulk_delete] in one step: the flush, the delete on what the flush
    left, and a commit that finds nothing more to write. *)
Lemma bulk_delete_eq ids s :
  bulk_delete ids s
  = (Return (length (filter (λ r, row_id r ∈ ids) (written s))),
     {| table := filter (λ r, row_id r ∉ ids) (written s);
        objects := flush (clock s) (stored s) <$> objects s;
        executed := (executed s ++ [DeleteWhereIdIn ids]) ++ [Commit];
        clock := clock s;
        stored := stored s |}).
Proof.
  unfold bulk_delete, query_filter_id_in_delete.
  unfold bind at 1. unfold bind at 1. rewrite flush_session_run.
  unfold bind at 1, get at 1. unfold bind at 1, put at 1. unfold ret at 1.
  simpl. unfold commit. unfold bind at 1. unfold bind at 1.
  rewrite flush_session_clean.
  - reflexivity.
  - intros o i Hi. simpl in Hi. by eapply flushed_session_clean.
Qed.

Example bulk_delete_run :
  bulk_delete [4; 9; 4] sample_db
  = (Return 1%nat,
     {| table := [machine_model_row 3 "press"];
        objects := {[ 7%positive := loaded_machine_model "press" ]};
        executed := [DeleteWhereIdIn [4; 9; 4]; Commit];
        clock := VStr "2026-11-04T09:30:00+09:00";
        stored := sample_stored |}).
Proof. vm_compute. reflexivity. Qed.





(** *** update *)

Lemma update_step_run self key v s inst :
  objects s !! self = Some inst →
  refuses inst !! key = None →
  update_step self key v s
    = (Return tt,
       with_objects s
         (<[self := with_attrs inst
                      (match attrs inst !! key with
                       | Some _ => <[key := v]> (attrs inst)
                       | None => attrs inst
                       end)]> (objects s))).
Proof.
  intros Hself Hfree. unfold update_step, hasattr, bind, get, ret, instance_of.
  rewrite Hself; simpl. rewrite Hfree.
  destruct (attrs inst !! key) as [old|] eqn:Hkey.
  - rewrite bool_decide_eq_true_2 by (left; eauto).
    unfold setattr, bind, get, instance_of. rewrite Hself; simpl.
    by rewrite Hfree.
  - rewrite bool_decide_eq_false_2
      by (intros [[? ?] | [? ?]]; congruence).
    unfold with_objects, with_attrs. rewrite insert_id;
      [by destruct s | by destruct inst].
Qed.

(** An assignment that is refused: [hasattr] finds the attribute, [setattr]
    raises, and nothing has changed. *)
Lemma update_step_refused self key v s inst e :
  objects s !! self = Some inst →
  refuses inst !! key = Some e →
  update_step self key v s = (Raise e, s).
Proof.
  intros Hself Hrefused.
  unfold update_step, hasattr, bind, get, ret, instance_of.
  rewrite Hself; simpl.
  rewrite bool_decide_eq_true_2 by (right; eauto).
  unfold setattr, bind, get, instance_of. rewrite Hself; simpl.
  by rewrite Hrefused.
Qed.

(** The loop of [update] over items none of which is refused touches the
    attributes of [self] alone, and those as [assigned] says. *)
Lemma update_loop_run self (values : list (string * value)) :
  NoDup values.*1 →
  ∀ s inst,
    objects s !! self = Some inst →
    (∀ key v, (key, v) ∈ values → refuses inst !! key = None) →
    ∃ attrs1,
      for_each values (λ item, update_step self item.1 item.2) s
        = (Return tt,
           with_objects s (<[self := with_attrs inst attrs1]> (objects s)))
      ∧ ∀ key, attrs1 !! key
               = assigned (attrs inst) (list_to_map values) key.
Proof.
  induction values as [|[k v] values IH]; intros Hnodup s inst Hself Hfree.
  - exists (attrs inst). split.
    + simpl. unfold ret, with_objects, with_attrs.
      rewrite insert_id; [by destruct s | by destruct inst].
    + intros key. unfold assigned. simpl. rewrite lookup_empty.
      by destruct (attrs inst !! key).
  - apply NoDup_cons in Hnodup as [Hfresh Hnodup]. simpl.
    unfold bind.
    rewrite (update_step_run self k v s inst Hself)
      by (apply (Hfree k v); left).
    set (inst0 := with_attrs inst
                    (match attrs inst !! k with
                     | Some _ => <[k := v]> (attrs inst)
                     | None => attrs inst
                     end)).
    destruct (IH Hnodup (with_objects s (<[self := inst0]> (objects s))) inst0)
      as (attrs1 & Hrun & Hattrs1).
    + simpl. apply lookup_insert_eq.
    + intros key w Hin. simpl. apply (Hfree key w). by right.
    + exists attrs1. split.
      * rewrite Hrun. unfold with_objects; simpl.
        by rewrite insert_insert_eq.
      * intros key. rewrite Hattrs1. unfold assigned, inst0. simpl.
        destruct (decide (key = k)) as [->|Hne].
        -- rewrite lookup_insert_eq.
           rewrite (not_elem_of_list_to_map_1 _ k) by done.
           destruct (attrs inst !! k) as [old|] eqn:Hold.
           ++ by rewrite lookup_insert_eq.
           ++ by rewrite Hold.
        -- rewrite (lookup_insert_ne _ k key) by done.
           destruct (attrs inst !! k) as [old|];
             [by rewrite lookup_insert_ne by done | done].
Qed.

Lemma commit_run s :
  commit s
  = (Return tt,
     {| table := written s;
        objects := flush (clock s) (stored s) <$> objects s;
        executed := executed s ++ [Commit];
        clock := clock s; stored := stored s |}).
Proof. reflexivity. Qed.

(** [update] over items none of which is refused, in one step. *)
Lemma update_eq self values s inst :
  objects s !! self = Some inst →
  NoDup values.*1 →
  (∀ key v, (key, v) ∈ values → refuses inst !! key = None) →
  ∃ attrs1,
    (∀ key, attrs1 !! key = assigned (attrs inst) (list_to_map values) key)
    ∧ update self values s
      = (Return self,
         {| table :=
              written (with_objects s
                         (<[self := with_attrs inst attrs1]> (objects s)));
            objects := flush (clock s) (stored s) <$>
                         <[self := with_attrs inst attrs1]> (objects s);
            executed := executed s ++ [Commit];
            clock := clock s;
            stored := stored s |}).
Proof.
  intros Hself Hnodup Hfree.
  destruct (update_loop_run self values Hnodup s inst Hself Hfree)
    as (attrs1 & Hrun & Hattrs1).
  exists attrs1. split; [done |].
  unfold update. unfold bind at 1. rewrite Hrun.
  unfold bind at 1. rewrite commit_run. reflexivity.
Qed.


Example update_run :
  update 7%positive [("name", VStr "lathe"); ("shoe_size", VInt 42)]
    sample_db
  = (Return 7%positive,
     {| table :=
          [ {| row_id := 3;
               row_data := {[ "id" := VInt 3; "name" := VStr "lathe";
                              "created_at" := VStr "2026-01-01T08:00:00";
                              "updated_at" := VStr "2026-11-04T09:30:00" ]} |};
            machine_model_row 4 "saw" ];
        objects :=
          {[ 7%positive :=
             let columns : gmap string value :=
               {[ "id" := VInt 3; "name" := VStr "lathe";
                  "created_at" := VStr "2026-01-01T08:00:00";
                  "updated_at" := VStr "2026-11-04T09:30:00" ]} in
             {| identity := 3; attrs := columns; flushed := columns;
                refuses := {[ "__class__" :=
                     TypeError "__class__ must be set to a class, not an int" ]} |} ]};
        executed := [Commit];
        clock := VStr "2026-11-04T09:30:00+09:00";
        stored := sample_stored |}).
Proof. vm_compute. reflexivity. Qed.

Example update_same_value_run :
  update 7%positive [("name", VStr "press")] sample_db
  = (Return 7%positive,
     {| table := [machine_model_row 3 "press"; machine_model_row 4 "saw"];
        objects := {[ 7%positive := loaded_machine_model "press" ]};
        executed := [Commit];
        clock := VStr "2026-11-04T09:30:00+09:00";
        stored := sample_stored |}).
Proof. vm_compute. reflexivity. Qed.

Example update_refused_run :
  update 7%positive [("name", VStr "lathe"); ("__class__", VInt 5)] sample_db
  = (Raise (TypeError "__class__ must be set to a class, not an int"),
     with_objects sample_db
       {[ 7%positive :=
            with_attrs (loaded_machine_model "press")
              (<["name" := VStr "lathe"]>
                 (attrs (loaded_machine_model "press"))) ]}).
Proof. vm_compute. reflexivity. Qed.




End ResourceSpec.

Module AuthSpec.
Import Auth.

Example login_rejects :
  login sample_schema sample_manager (request_of (VStr "hello") ∅) fresh_world
  = (Return (VTuple [VDict [("errors",
                             VDict [("_schema",
                                     VTuple [VStr "Invalid input type."])])];
                     VInt 422]),
     fresh_world).
Proof. reflexivity. Qed.

Example login_accepts :
  login sample_schema sample_manager
    (request_of (VDict [("email", VStr "client@endo.com");
                        ("password", VStr "client@password")]) ∅)
    fresh_world
  = (Return sample_tokens,
     {| manager := [];
        calls := [Login (VDict [("email", VStr "client@endo.com");
                                ("password", VStr "client@password")])] |}).
Proof. reflexivity. Qed.

Example revoke_ok :
  access_token_revoke sample_manager
    (request_of VNone {[ "jti" := VStr "abc" ]}) fresh_world
  = (Return (VDict [("message", VStr "Access token has been revoked")]),
     {| manager := [VStr "abc"]; calls := [RevokeToken (VStr "abc")] |}).
Proof. vm_compute. reflexivity. Qed.

Example revoke_fails :
  refresh_token_revoke sample_manager
    (request_of VNone {[ "jti" := VNone ]}) fresh_world
  = (Return (VTuple [VDict [("message", VStr "Something went wrong")];
                     VInt 500]),
     {| manager := []; calls := [RevokeToken VNone] |}).
Proof. vm_compute. reflexivity. Qed.

Section handlers.
Context {T : Type}.
Variable login_schema : schema.
Variable manager_impl : authentication_manager T.

(** *** login *)

(** C2. On a request with a JSON payload: when [LoginSchema.load] raises
    [ValidationError] on the payload,
    [login] returns [({'errors': messages}, 422)] and the manager is neither
    called nor changed. When [load] returns the validated data, [login] is
    the call [authentication_manager.login(data)] and nothing else: what the
    manager returns (the token pair, for valid credentials) is what the
    handler returns. *)
Theorem login_validation_gate (req : request) (w : world T) (json : value) :
  get_json req = Return json →
  (∀ messages,
     load login_schema json = Raise (ValidationError messages) →
     login login_schema manager_impl req w
       = (Return (VTuple [VDict [("errors", messages)]; VInt 422]), w)
     ∧ status_code (VTuple [VDict [("errors", messages)]; VInt 422]) = 422)
  ∧ (∀ data,
       load login_schema json = Return data →
       login login_schema manager_impl req w
         = invoke (Login data) (am_login manager_impl data) w
       ∧ ∀ tokens t',
           am_login manager_impl data (manager w) = (Return tokens, t') →
           login login_schema manager_impl req w
             = (Return tokens,
                {| manager := t'; calls := (calls w ++ [Login data])%list |})).
Proof.
  intros Hjson. split.
  - intros messages Hload. split; [| done].
    unfold login, bind, try_except, lift. by rewrite Hjson, Hload.
  - intros data Hload.
    assert (login login_schema manager_impl req w
            = invoke (Login data) (am_login manager_impl data) w) as Hrun.
    { unfold login, bind, try_except, lift. by rewrite Hjson, Hload. }
    split; [done |].
    intros tokens t' Hlogin. rewrite Hrun. unfold invoke. by rewrite Hlogin.
Qed.

(** *** the reset-password stubs *)

(** C8. The two reset-password handlers do nothing: on every request (and
    every token in the path) each returns [None] and leaves the manager and
    the record of calls as they were. *)
Theorem reset_password_stubs (req : request) (token : string) (w : world T) :
  reset_password_request (T := T) req w = (Return VNone, w)
  ∧ reset_password (T := T) token req w = (Return VNone, w).
Proof. split; reflexivity. Qed.

(** *** token revocation *)

(** What either revocation handler does on a token that carries a [jti]
    entry: one call of [revoke_token], then the answer by its outcome. *)
Lemma revoke_run (handler : request → M (world T) value) req w jti :
  handler = access_token_revoke manager_impl
  ∨ handler = refresh_token_revoke manager_impl →
  get_jwt req !! "jti" = Some jti →
  handler req w
    = (Return (if raised (am_revoke_token manager_impl jti (manager w)).1
               then went_wrong else revoked_body),
       {| manager := (am_revoke_token manager_impl jti (manager w)).2;
          calls := (calls w ++ [RevokeToken jti])%list |}).
Proof.
  intros [-> | ->] Hjti;
    unfold access_token_revoke, refresh_token_revoke, subscript;
    rewrite Hjti; unfold bind at 1, ret at 1;
    unfold try_except, bind, invoke, bare_except, ret;
    by destruct (am_revoke_token manager_impl jti (manager w)) as [[v|e] t'].
Qed.

(** Without a [jti] entry the subscript raises before the [try]. *)
Lemma revoke_without_jti req w :
  get_jwt req !! "jti" = None →
  access_token_revoke manager_impl req w = (Raise (KeyError "jti"), w)
  ∧ refresh_token_revoke manager_impl req w = (Raise (KeyError "jti"), w).
Proof.
  intros Hjti. unfold access_token_revoke, refresh_token_revoke, subscript.
  by rewrite Hjti.
Qed.

(** C3. On a request whose verified token carries its [jti] entry (what
    [jwt_required] leaves behind [get_jwt()]), both revocation handlers
    return normally whatever [revoke_token] does: if it raises, whichever
    exception, the handler returns [{'message': 'Something went wrong'}]
    with status 500; if it returns, the handler returns the success message,
    a bare body, hence status 200. *)
Theorem revoke_never_propagates (req : request) (w : world T) (jti : value) :
  get_jwt req !! "jti" = Some jti →
  ∀ handler,
    handler = access_token_revoke manager_impl
    ∨ handler = refresh_token_revoke manager_impl →
    (∀ e t', am_revoke_token manager_impl jti (manager w) = (Raise e, t') →
       ∃ w', handler req w
             = (Return (VTuple [VDict [("message",
                                        VStr "Something went wrong")];
                                VInt 500]), w')
             ∧ status_code (VTuple [VDict [("message",
                                            VStr "Something went wrong")];
                                    VInt 500]) = 500)
    ∧ (∀ v t', am_revoke_token manager_impl jti (manager w) = (Return v, t') →
         ∃ body w', handler req w = (Return (VDict [("message", VStr body)]), w')
                    ∧ status_code (VDict [("message", VStr body)]) = 200)
    ∧ (∃ response w', handler req w = (Return response, w')).
Proof.
  intros Hjti handler Hhandler.
  pose proof (revoke_run handler req w jti Hhandler Hjti) as Hrun.
  split; [| split].
  - intros e t' Hraise. rewrite Hraise in Hrun; simpl in Hrun.
    eexists. split; [exact Hrun | reflexivity].
  - intros v t' Hret. rewrite Hret in Hrun; simpl in Hrun.
    do 2 eexists. split; [exact Hrun | reflexivity].
  - eauto.
Qed.

(** C10. The two revocation handlers are the same function of the request
    and the world: each makes the one call [revoke_token(jti)], and when it
    succeeds each returns [{'message': 'Access token has been revoked'}],
    the refresh endpoint included. *)
Theorem revoke_handlers_identical :
  (∀ req w,
     access_token_revoke manager_impl req w
     = refresh_token_revoke manager_impl req w)
  ∧ (∀ req w jti,
       get_jwt req !! "jti" = Some jti →
       calls (refresh_token_revoke manager_impl req w).2
         = (calls w ++ [RevokeToken jti])%list
       ∧ calls (access_token_revoke manager_impl req w).2
         = (calls w ++ [RevokeToken jti])%list)
  ∧ (∀ req w jti v t',
       get_jwt req !! "jti" = Some jti →
       am_revoke_token manager_impl jti (manager w) = (Return v, t') →
       refresh_token_revoke manager_impl req w
         = (Return (VDict [("message", VStr "Access token has been revoked")]),
            {| manager := t'; calls := (calls w ++ [RevokeToken jti])%list |})
       ∧ access_token_revoke manager_impl req w
         = (Return (VDict [("message", VStr "Access token has been revoked")]),
            {| manager := t'; calls := (calls w ++ [RevokeToken jti])%list |})).
Proof.
  split; [reflexivity |]. split.
  - intros req w jti Hjti.
    rewrite (revoke_run (refresh_token_revoke manager_impl) req w jti), 
            (revoke_run (access_token_revoke manager_impl) req w jti) by auto.
    done.
  - intros req w jti v t' Hjti Hret.
    rewrite (revoke_run (refresh_token_revoke manager_impl) req w jti),
            (revoke_run (access_token_revoke manager_impl) req w jti) by auto.
    by rewrite Hret.
Qed.

End handlers.

Lemma login_validation_gate_witness :
  login sample_schema sample_manager (request_of (VStr "hello") ∅) fresh_world
    = (Return (VTuple [VDict [("errors",
                               VDict [("_schema",
                                       VTuple [VStr "Invalid input type."])])];
                       VInt 422]),
       fresh_world)
  ∧ login sample_schema sample_manager
      (request_of (VDict [("email", VStr "client@endo.com");
                          ("password", VStr "client@password")]) ∅)
      fresh_world
    = (Return sample_tokens,
       {| manager := [];
          calls := [Login (VDict [("email", VStr "client@endo.com");
                                  ("password", VStr "client@password")])] |}).
Proof.
  split.
  - destruct (login_validation_gate sample_schema sample_manager
                (request_of (VStr "hello") ∅) fresh_world (VStr "hello"))
      as [Hreject _]; [reflexivity |].
    apply Hreject. reflexivity.
  - destruct (login_validation_gate sample_schema sample_manager
                (request_of (VDict [("email", VStr "client@endo.com");
                                    ("password", VStr "client@password")]) ∅)
                fresh_world
                (VDict [("email", VStr "client@endo.com");
                        ("password", VStr "client@password")]))
      as [_ Haccept]; [reflexivity |].
    apply (Haccept (VDict [("email", VStr "client@endo.com");
                           ("password", VStr "client@password")]));
      reflexivity.
Defined.

Lemma revoke_never_propagates_witness :
  ∃ response w',
    refresh_token_revoke sample_manager
      (request_of VNone {[ "jti" := VNone ]}) fresh_world
    = (Return response, w').
Proof.
  apply (revoke_never_propagates sample_manager
           (request_of VNone {[ "jti" := VNone ]}) fresh_world VNone).
  - vm_compute. reflexivity.
  - right. reflexivity.
Defined.

Lemma revoke_handlers_identical_witness :
  refresh_token_revoke sample_manager
    (request_of VNone {[ "jti" := VStr "abc" ]}) fresh_world
  = (Return (VDict [("message", VStr "Access token has been revoked")]),
     {| manager := [VStr "abc"]; calls := [RevokeToken (VStr "abc")] |}).
Proof.
  destruct (revoke_handlers_identical sample_manager) as (_ & _ & Hsame).
  apply (Hsame (request_of VNone {[ "jti" := VStr "abc" ]}) fresh_world
               (VStr "abc") VNone [VStr "abc"]).
  - vm_compute. reflexivity.
  - vm_compute. reflexivity.
Defined.

End AuthSpec.

Module ConftestSpec.
Import Conftest.

Example strftime_pads :
  strftime {| year := 2026; month := 3; day := 9 |} = "2026-03-09".
Proof. vm_compute. reflexivity. Qed.

(** *** The date helpers, one step at a time *)

Lemma bind_ret_r {S A} (m : M S A) s : (let* x := m in ret x) s = m s.
Proof. unfold bind, ret. by destruct (m s) as [[a|e] s']. Qed.

Lemma get_rotation_date_step E depth machine w :
  _get_rotation_date E (S depth) machine w
  = if rotation_taken w (drawn E w 0) machine
    then _get_rotation_date E depth machine
           (with_fake_drawn w (S (fake_drawn w)))
    else (Return (drawn E w 0), with_fake_drawn w (S (fake_drawn w))).
Proof.
  unfold drawn. rewrite Nat.add_0_r.
  change (_get_rotation_date E (S depth) machine w)
    with ((let* d := _get_random_date E in
           let* taken := RotationService_is_exists (strftime d) machine in
           if taken
           then let* date := _get_rotation_date E depth machine in ret date
           else ret (strftime d)) w).
  unfold bind at 1. unfold _get_random_date, date_between, bind, get, put, ret.
  fold (from_date E) (to_date E). simpl.
  unfold RotationService_is_exists, bind, get, ret, rotation_taken; simpl.
  destruct (existsb _ (rotation_table w)); [| done].
  by destruct (_get_rotation_date E depth machine _) as [[a|e] s'].
Qed.

Lemma get_operating_time_date_step E depth machine w :
  _get_operating_time_date E (S depth) machine w
  = if operating_time_taken w (drawn E w 0) machine
    then _get_operating_time_date E depth machine
           (with_fake_drawn w (S (fake_drawn w)))
    else (Return (drawn E w 0), with_fake_drawn w (S (fake_drawn w))).
Proof.
  unfold drawn. rewrite Nat.add_0_r.
  change (_get_operating_time_date E (S depth) machine w)
    with ((let* d := _get_random_date E in
           let* taken := OperatingTimeService_is_exists (strftime d) machine in
           if taken
           then let* date := _get_operating_time_date E depth machine in
                ret date
           else ret (strftime d)) w).
  unfold bind at 1. unfold _get_random_date, date_between, bind, get, put, ret.
  fold (from_date E) (to_date E). simpl.
  unfold OperatingTimeService_is_exists, bind, get, ret, operating_time_taken;
    simpl.
  destruct (existsb _ (operating_time_table w)); [| done].
  by destruct (_get_operating_time_date E depth machine _) as [[a|e] s'].
Qed.

(** The helpers only draw dates: whatever they end with, the world differs
    from the one they started in by the number of draws alone. *)
Lemma get_rotation_date_frame E depth machine w :
  ∃ k, (_get_rotation_date E depth machine w).2
       = with_fake_drawn w (fake_drawn w + k).
Proof.
  revert w. induction depth as [|depth IH]; intros w.
  - exists 0%nat. simpl. rewrite Nat.add_0_r. by destruct w.
  - rewrite get_rotation_date_step.
    destruct (rotation_taken w (drawn E w 0) machine).
    + destruct (IH (with_fake_drawn w (S (fake_drawn w)))) as [k ->].
      exists (S k). simpl. unfold with_fake_drawn; simpl. f_equal. lia.
    + exists 1%nat. simpl. unfold with_fake_drawn; simpl. f_equal. lia.
Qed.

Lemma get_operating_time_date_frame E depth machine w :
  ∃ k, (_get_operating_time_date E depth machine w).2
       = with_fake_drawn w (fake_drawn w + k).
Proof.
  revert w. induction depth as [|depth IH]; intros w.
  - exists 0%nat. simpl. rewrite Nat.add_0_r. by destruct w.
  - rewrite get_operating_time_date_step.
    destruct (operating_time_taken w (drawn E w 0) machine).
    + destruct (IH (with_fake_drawn w (S (fake_drawn w)))) as [k ->].
      exists (S k). simpl. unfold with_fake_drawn; simpl. f_equal. lia.
    + exists 1%nat. simpl. unfold with_fake_drawn; simpl. f_equal. lia.
Qed.

(** A date a helper returns is one that is not taken. *)
Lemma get_rotation_date_free E depth machine w date w' :
  _get_rotation_date E depth machine w = (Return date, w') →
  rotation_taken w date machine = false.
Proof.
  revert w. induction depth as [|depth IH]; intros w; [done |].
  rewrite get_rotation_date_step.
  destruct (rotation_taken w (drawn E w 0) machine) eqn:Htaken.
  - intros Hrec. by apply IH in Hrec.
  - intros [= <- <-]. done.
Qed.

Lemma get_operating_time_date_free E depth machine w date w' :
  _get_operating_time_date E depth machine w = (Return date, w') →
  operating_time_taken w date machine = false.
Proof.
  revert w. induction depth as [|depth IH]; intros w; [done |].
  rewrite get_operating_time_date_step.
  destruct (operating_time_taken w (drawn E w 0) machine) eqn:Htaken.
  - intros Hrec. by apply IH in Hrec.
  - intros [= <- <-]. done.
Qed.

(** *** When the helpers return *)

Lemma drawn_shift E w j :
  drawn E (with_fake_drawn w (S (fake_drawn w))) j = drawn E w (S j).
Proof. unfold drawn; simpl. by rewrite Nat.add_succ_r. Qed.

Lemma get_rotation_date_first_free E machine k :
  ∀ depth w,
    (k < depth)%nat →
    (∀ j, (j < k)%nat → rotation_taken w (drawn E w j) machine = true) →
    rotation_taken w (drawn E w k) machine = false →
    _get_rotation_date E depth machine w
    = (Return (drawn E w k), with_fake_drawn w (fake_drawn w + S k)).
Proof.
  induction k as [|k IH]; intros depth w Hdepth Hbefore Hfree;
    (destruct depth as [|depth]; [lia |]); rewrite get_rotation_date_step.
  - rewrite Hfree. do 2 f_equal. lia.
  - rewrite (Hbefore 0%nat) by lia.
    rewrite (IH depth (with_fake_drawn w (S (fake_drawn w)))).
    + rewrite (drawn_shift E w). unfold with_fake_drawn; simpl.
      do 3 f_equal. lia.
    + lia.
    + intros j Hj. rewrite (drawn_shift E w). apply (Hbefore (S j)). lia.
    + rewrite (drawn_shift E w). exact Hfree.
Qed.

Lemma get_operating_time_date_first_free E machine k :
  ∀ depth w,
    (k < depth)%nat →
    (∀ j, (j < k)%nat → operating_time_taken w (drawn E w j) machine = true) →
    operating_time_taken w (drawn E w k) machine = false →
    _get_operating_time_date E depth machine w
    = (Return (drawn E w k), with_fake_drawn w (fake_drawn w + S k)).
Proof.
  induction k as [|k IH]; intros depth w Hdepth Hbefore Hfree;
    (destruct depth as [|depth]; [lia |]);
    rewrite get_operating_time_date_step.
  - rewrite Hfree. do 2 f_equal. lia.
  - rewrite (Hbefore 0%nat) by lia.
    rewrite (IH depth (with_fake_drawn w (S (fake_drawn w)))).
    + rewrite (drawn_shift E w). unfold with_fake_drawn; simpl.
      do 3 f_equal. lia.
    + lia.
    + intros j Hj. rewrite (drawn_shift E w). apply (Hbefore (S j)). lia.
    + rewrite (drawn_shift E w). exact Hfree.
Qed.

(** When every draw the depth allows is taken, the recursion runs into the
    limit. *)
Lemma get_rotation_date_exhausted E machine depth :
  ∀ w,
    (∀ j, (j < depth)%nat → rotation_taken w (drawn E w j) machine = true) →
    (_get_rotation_date E depth machine w).1 = Raise RecursionError.
Proof.
  induction depth as [|depth IH]; intros w Htaken; [done |].
  rewrite get_rotation_date_step, (Htaken 0%nat) by lia.
  apply IH. intros j Hj. rewrite (drawn_shift E w).
  apply (Htaken (S j)). lia.
Qed.

Lemma get_operating_time_date_exhausted E machine depth :
  ∀ w,
    (∀ j, (j < depth)%nat →
          operating_time_taken w (drawn E w j) machine = true) →
    (_get_operating_time_date E depth machine w).1 = Raise RecursionError.
Proof.
  induction depth as [|depth IH]; intros w Htaken; [done |].
  rewrite get_operating_time_date_step, (Htaken 0%nat) by lia.
  apply IH. intros j Hj. rewrite (drawn_shift E w).
  apply (Htaken (S j)). lia.
Qed.

(** C5, as amended. Each date helper returns a date string when one of the
    draws the recursion depth allows is a date with no record for the
    machine: it returns the first such draw, having made the draws up to
    it and changed nothing else. *)
Theorem date_helpers_return_first_free (E : env) (machine : Z) (depth k : nat)
    (w : world) :
  (k < depth)%nat →
  ((∀ j, (j < k)%nat → rotation_taken w (drawn E w j) machine = true) →
   rotation_taken w (drawn E w k) machine = false →
   _get_rotation_date E depth machine w
   = (Return (drawn E w k), with_fake_drawn w (fake_drawn w + S k)))
  ∧ ((∀ j, (j < k)%nat →
           operating_time_taken w (drawn E w j) machine = true) →
     operating_time_taken w (drawn E w k) machine = false →
     _get_operating_time_date E depth machine w
     = (Return (drawn E w k), with_fake_drawn w (fake_drawn w + S k))).
Proof.
  intros Hdepth. split; intros Hbefore Hfree.
  - by apply get_rotation_date_first_free.
  - by apply get_operating_time_date_first_free.
Qed.

(** C5, as stated, fails. Every draw lies in the year's range, and the range
    holds a date (the second of January) with no record for machine 10 in
    either table; yet at every recursion depth both helpers end in
    [RecursionError] and return no date. *)
Lemma date_helpers_may_not_return :
  (∀ k, in_range stuck_env
          (fake_date_between stuck_env (from_date stuck_env)
             (to_date stuck_env) k) = true)
  ∧ (∃ d, in_range stuck_env d = true
          ∧ rotation_taken stuck_world (strftime d) 10 = false
          ∧ operating_time_taken stuck_world (strftime d) 10 = false)
  ∧ (∀ depth,
       (_get_rotation_date stuck_env depth 10 stuck_world).1
       = Raise RecursionError)
  ∧ (∀ depth,
       (_get_operating_time_date stuck_env depth 10 stuck_world).1
       = Raise RecursionError).
Proof.
  split; [intros k; vm_compute; reflexivity |].
  split.
  { exists {| year := 2026; month := 1; day := 2 |}. vm_compute. auto. }
  split; intros depth.
  - apply get_rotation_date_exhausted. intros j _. vm_compute. reflexivity.
  - apply get_operating_time_date_exhausted. intros j _.
    vm_compute. reflexivity.
Qed.

(** *** Uniqueness of the seeded (date, machine) pairs *)

Lemma seeded_unique_refl {R K} (key : R → K) (l : list R) :
  seeded_unique key l l.
Proof.
  exists []. split; [by rewrite app_nil_r |].
  split; [constructor |]. intros r Hr. by apply elem_of_nil in Hr.
Qed.

Lemma seeded_unique_snoc {R K} (key : R → K) (before after : list R) (r : R) :
  seeded_unique key before after →
  key r ∉ key <$> after →
  seeded_unique key before (after ++ [r]).
Proof.
  intros (seeded & -> & Hnodup & Hfresh) Hnew.
  rewrite fmap_app, elem_of_app in Hnew.
  exists (seeded ++ [r])%list. split; [by rewrite app_assoc |]. split.
  - rewrite fmap_app. apply NoDup_app. split; [done |]. split.
    + intros x Hx Hx'. simpl in Hx'. apply list_elem_of_singleton in Hx'.
      subst x. tauto.
    + simpl. apply NoDup_singleton.
  - intros x Hx. apply elem_of_app in Hx as [Hx | Hx]; [by apply Hfresh |].
    apply list_elem_of_singleton in Hx. subst x. tauto.
Qed.

Lemma rotation_taken_false w date machine :
  rotation_taken w date machine = false →
  (date, machine) ∉ rotation_key <$> rotation_table w.
Proof.
  unfold rotation_taken. induction (rotation_table w) as [|r l IH]; simpl.
  - intros _ Hin. by apply elem_of_nil in Hin.
  - intros Hfalse. apply orb_false_iff in Hfalse as [Hr Hl].
    apply bool_decide_eq_false in Hr.
    intros Hin. apply elem_of_cons in Hin as [Heq | Hin]; [| by apply IH].
    apply Hr. unfold rotation_key in Heq. by inversion Heq.
Qed.

Lemma operating_time_taken_false w date machine :
  operating_time_taken w date machine = false →
  (date, machine) ∉ operating_time_key <$> operating_time_table w.
Proof.
  unfold operating_time_taken.
  induction (operating_time_table w) as [|r l IH]; simpl.
  - intros _ Hin. by apply elem_of_nil in Hin.
  - intros Hfalse. apply orb_false_iff in Hfalse as [Hr Hl].
    apply bool_decide_eq_false in Hr.
    intros Hin. apply elem_of_cons in Hin as [Heq | Hin]; [| by apply IH].
    apply Hr. unfold operating_time_key in Heq. by inversion Heq.
Qed.

(** A loop that ends normally carries an invariant of its body through. *)
Lemma for_each_invariant {S A} (I : S → Prop) (body : A → M S unit)
    (l : list A) :
  (∀ x s s', I s → body x s = (Return tt, s') → I s') →
  ∀ s s', I s → for_each l body s = (Return tt, s') → I s'.
Proof.
  intros Hbody. induction l as [|x l IH]; intros s s' Hs; simpl.
  - by intros [= <-].
  - unfold bind. destruct (body x s) as [[[]|e] s1] eqn:Hx; [| done].
    intros Hrest. eapply IH; [| exact Hrest]. by eapply Hbody.
Qed.

Lemma seed_rotation_inv E depth machine w0 w w' :
  rotations_inv w0 w →
  (let* date := _get_rotation_date E depth machine in
   let* normal := randrange E 200 600 in
   let* reverse := randrange E 200 600 in
   RotationService_create
     {| rotation_date := date;
        shaft_a_normal_rotation := normal;
        shaft_a_reverse_rotation := reverse;
        rotation_customer_machine_id := machine |}) w = (Return tt, w') →
  rotations_inv w0 w'.
Proof.
  intros (Hseeded & Hother & Hcust & Hmach). unfold bind at 1.
  destruct (_get_rotation_date E depth machine w) as [[date|e] w1] eqn:Hget;
    [| done].
  pose proof (get_rotation_date_free _ _ _ _ _ _ Hget) as Hfree.
  destruct (get_rotation_date_frame E depth machine w) as [k Hframe].
  rewrite Hget in Hframe; simpl in Hframe. subst w1.
  unfold randrange, RotationService_create, bind, get, put, ret, modify; simpl.
  intros [= <-]. unfold rotations_inv; simpl. repeat split; try done.
  apply seeded_unique_snoc; [done |]. by apply rotation_taken_false.
Qed.

Lemma seed_operating_time_inv E depth machine w0 w w' :
  operating_times_inv w0 w →
  (let* date := _get_operating_time_date E depth machine in
   let* duration := randrange E 10000 50000 in
   OperatingTimeService_create
     {| operating_time_date := date;
        duration := duration;
        operating_time_customer_machine_id := machine |}) w = (Return tt, w') →
  operating_times_inv w0 w'.
Proof.
  intros (Hseeded & Hother & Hcust & Hmach). unfold bind at 1.
  destruct (_get_operating_time_date E depth machine w)
    as [[date|e] w1] eqn:Hget; [| done].
  pose proof (get_operating_time_date_free _ _ _ _ _ _ Hget) as Hfree.
  destruct (get_operating_time_date_frame E depth machine w) as [k Hframe].
  rewrite Hget in Hframe; simpl in Hframe. subst w1.
  unfold randrange, OperatingTimeService_create, bind, get, put, ret, modify;
    simpl.
  intros [= <-]. unfold operating_times_inv; simpl. repeat split; try done.
  apply seeded_unique_snoc; [done |]. by apply operating_time_taken_false.
Qed.

Lemma rotations_seeds_unique E depth w w' :
  rotations E depth w = (Return tt, w') → rotations_inv w w'.
Proof.
  unfold rotations, UserService_get_all_customers.
  unfold bind at 1, get at 1. unfold bind at 1, ret at 1.
  apply (for_each_invariant (rotations_inv w)).
  - intros customer s s' Hs.
    unfold CustomerMachine_query_filter.
    unfold bind at 1, get at 1. unfold bind at 1, ret at 1.
    apply (for_each_invariant (rotations_inv w)); [| done].
    intros machine s1 s1' Hs1.
    apply (for_each_invariant (rotations_inv w)); [| done].
    intros i s2 s2' Hs2. by apply seed_rotation_inv.
  - repeat split; try done. apply seeded_unique_refl.
Qed.

Lemma operating_times_seeds_unique E depth w w' :
  operating_times E depth w = (Return tt, w') → operating_times_inv w w'.
Proof.
  unfold operating_times, UserService_get_all_customers.
  unfold bind at 1, get at 1. unfold bind at 1, ret at 1.
  apply (for_each_invariant (operating_times_inv w)).
  - intros customer s s' Hs.
    unfold CustomerMachine_query_filter.
    unfold bind at 1, get at 1. unfold bind at 1, ret at 1.
    apply (for_each_invariant (operating_times_inv w)); [| done].
    intros machine s1 s1' Hs1.
    apply (for_each_invariant (operating_times_inv w)); [| done].
    intros i s2 s2' Hs2. by apply seed_operating_time_inv.
  - repeat split; try done. apply seeded_unique_refl.
Qed.

(** C4. A date that [_get_rotation_date] (or [_get_operating_time_date])
    returns for a machine is one for which the service's [is_exists] answers
    false in the world the helper returns in. Hence a run of the fixture
    [rotations] (or [operating_times]) that completes appends rows whose
    (date, machine) pairs differ from one another and from every pair the
    table held before; the other table is untouched. *)
Theorem seeded_dates_unique (E : env) (depth : nat) :
  (∀ machine w date w',
     _get_rotation_date E depth machine w = (Return date, w') →
     RotationService_is_exists date machine w' = (Return false, w'))
  ∧ (∀ machine w date w',
       _get_operating_time_date E depth machine w = (Return date, w') →
       OperatingTimeService_is_exists date machine w' = (Return false, w'))
  ∧ (∀ w w',
       rotations E depth w = (Return tt, w') →
       seeded_unique rotation_key (rotation_table w) (rotation_table w')
       ∧ operating_time_table w' = operating_time_table w)
  ∧ (∀ w w',
       operating_times E depth w = (Return tt, w') →
       seeded_unique operating_time_key
         (operating_time_table w) (operating_time_table w')
       ∧ rotation_table w' = rotation_table w).
Proof.
  split; [| split; [| split]].
  - intros machine w date w' Hget.
    pose proof (get_rotation_date_free _ _ _ _ _ _ Hget) as Hfree.
    destruct (get_rotation_date_frame E depth machine w) as [k Hframe].
    rewrite Hget in Hframe; simpl in Hframe. subst w'.
    unfold RotationService_is_exists, bind, get, ret; simpl.
    unfold rotation_taken in Hfree. by rewrite Hfree.
  - intros machine w date w' Hget.
    pose proof (get_operating_time_date_free _ _ _ _ _ _ Hget) as Hfree.
    destruct (get_operating_time_date_frame E depth machine w) as [k Hframe].
    rewrite Hget in Hframe; simpl in Hframe. subst w'.
    unfold OperatingTimeService_is_exists, bind, get, ret; simpl.
    unfold operating_time_taken in Hfree. by rewrite Hfree.
  - intros w w' Hrun.
    by destruct (rotations_seeds_unique E depth w w' Hrun) as (? & ? & _).
  - intros w w' Hrun.
    by destruct (operating_times_seeds_unique E depth w w' Hrun) as (? & ? & _).
Qed.

(** *** Runs *)

Example get_rotation_date_retries :
  _get_rotation_date sample_env 5 10 sample_world
  = (Return "2026-01-02", with_fake_drawn sample_world 3).
Proof. vm_compute. reflexivity. Qed.

Example get_rotation_date_out_of_depth :
  _get_rotation_date sample_env 2 10 sample_world
  = (Raise RecursionError, with_fake_drawn sample_world 2).
Proof. vm_compute. reflexivity. Qed.

Example rotations_seeds_thirty :
  length (rotation_table (rotations sample_env 5 sample_world).2) = 31%nat
  ∧ length (operating_time_table
              (operating_times sample_env 5 sample_world).2) = 30%nat.
Proof. vm_compute. done. Qed.

Lemma seeded_dates_unique_witness :
  RotationService_is_exists "2026-01-02" 10 (with_fake_drawn sample_world 3)
    = (Return false, with_fake_drawn sample_world 3)
  ∧ seeded_unique rotation_key
      (rotation_table sample_world)
      (rotation_table (rotations sample_env 5 sample_world).2)
  ∧ seeded_unique operating_time_key
      (operating_time_table sample_world)
      (operating_time_table (operating_times sample_env 5 sample_world).2).
Proof.
  destruct (seeded_dates_unique sample_env 5) as (Hdate & _ & Hrot & Hot).
  split; [| split].
  - apply (Hdate 10 sample_world). vm_compute. reflexivity.
  - apply (Hrot sample_world). vm_compute. reflexivity.
  - apply (Hot sample_world). vm_compute. reflexivity.
Defined.

Lemma date_helpers_return_first_free_witness :
  _get_rotation_date sample_env 5 10 sample_world
    = (Return "2026-01-02", with_fake_drawn sample_world 3)
  ∧ _get_operating_time_date sample_env 5 10 sample_world
    = (Return "2026-01-01", with_fake_drawn sample_world 1).
Proof.
  split.
  - destruct (date_helpers_return_first_free sample_env 10 5 2 sample_world)
      as [Hrot _]; [lia |].
    apply Hrot.
    + intros [|[|j]] Hj; [vm_compute; reflexivity .. | lia].
    + vm_compute. reflexivity.
  - destruct (date_helpers_return_first_free sample_env 10 5 0 sample_world)
      as [_ Hot]; [lia |].
    apply Hot.
    + intros j Hj. lia.
    + vm_compute. reflexivity.
Defined.

End ConftestSpec.

(** * Further properties of the mixin *)

Module ResourceMore.
Import Resource.

(** *** sort_by *)

(** X1. Validating a validated pair changes nothing. *)
Theorem sort_by_idempotent cls field direction :
  sort_by cls (sort_by cls field direction).1 (sort_by cls field direction).2
  = sort_by cls field direction.
Proof.
  rewrite !ResourceSpec.sort_by_eq. simpl. f_equal.
  - destruct (decide (field ∈ table_columns cls)) as [Hin|Hout].
    + by rewrite decide_True.
    + by destruct (decide ("created_at" ∈ table_columns cls)).
  - destruct (decide (direction = "asc" ∨ direction = "desc")) as [Hd|Hd].
    + by rewrite decide_True.
    + rewrite decide_True; [done | by left].
Qed.

(** X2. On a model whose table has the column [created_at], which the mixin
    itself declares, the field returned is always a column of the table. *)
Theorem sort_by_field_is_column cls field direction :
  "created_at" ∈ table_columns cls →
  (sort_by cls field direction).1 ∈ table_columns cls.
Proof.
  intros Hcreated. rewrite ResourceSpec.sort_by_eq. simpl.
  by destruct (decide (field ∈ table_columns cls)).
Qed.

Lemma sort_by_field_is_column_witness :
  (sort_by machine_model "colour" "desc").1 ∈ table_columns machine_model.
Proof.
  apply sort_by_field_is_column. unfold machine_model; simpl.
  rewrite !elem_of_cons. auto.
Defined.

(** *** get_bulk_action_ids *)

Lemma iter_contains_from_miss f x src :
  x ∉ f <$> src → iter_contains_from f x src = (false, []).
Proof.
  induction src as [|y src IH]; simpl; [done |].
  rewrite elem_of_cons. intros Hmiss.
  unfold py_eq. rewrite bool_decide_eq_false_2 by tauto.
  apply IH. tauto.
Qed.

Lemma iter_contains_from_found f x src :
  x ∈ f <$> src → (iter_contains_from f x src).1 = true.
Proof.
  induction src as [|y src IH]; simpl.
  - intros Hin. by apply elem_of_nil in Hin.
  - rewrite elem_of_cons. intros Hin. unfold py_eq.
    destruct (bool_decide (x = f y)) eqn:Hxy; [done |].
    apply bool_decide_eq_false in Hxy. apply IH. tauto.
Qed.

(** What a membership test leaves of the iterator is a suffix of what it
    found, shorter when the test succeeded. *)
Lemma iter_contains_from_rest f x src :
  (iter_contains_from f x src).2 `suffix_of` src
  ∧ ((iter_contains_from f x src).1 = true →
     (length (iter_contains_from f x src).2 < length src)%nat).
Proof.
  induction src as [|y src [IHs IHl]]; simpl; [by split |].
  destruct (py_eq x (f y)); simpl.
  - split; [by apply suffix_cons_r | lia].
  - split; [by apply suffix_cons_r |]. intros Hfound.
    specialize (IHl Hfound). lia.
Qed.

Lemma keep_not_in_exhausted ids f :
  keep_not_in ids {| map_fun := f; map_src := [] |} = ids.
Proof. induction ids as [|id ids IH]; simpl; [done |]. by rewrite IH. Qed.

Lemma keep_not_in_sublist ids it : keep_not_in ids it `sublist_of` ids.
Proof.
  revert it. induction ids as [|id ids IH]; intros it; simpl; [done |].
  destruct (iter_contains id it) as [found it']. destruct found; simpl.
  - by apply sublist_cons.
  - by apply sublist_skip.
Qed.

Lemma filter_sublist_mono {A} (P Q : A → Prop)
    `{!∀ x, Decision (P x)} `{!∀ x, Decision (Q x)} (l : list A) :
  (∀ x, P x → Q x) → filter P l `sublist_of` filter Q l.
Proof.
  intros HPQ. induction l as [|x l IH]; [done |].
  rewrite !filter_cons.
  destruct (decide (P x)) as [HP|HP].
  - rewrite decide_True by auto. by apply sublist_skip.
  - destruct (decide (Q x)); [by apply sublist_cons | done].
Qed.

Lemma keep_not_in_keeps ids f src :
  filter (λ id, id ∉ f <$> src) ids
    `sublist_of` keep_not_in ids {| map_fun := f; map_src := src |}.
Proof.
  revert src. induction ids as [|id ids IH]; intros src; simpl; [done |].
  unfold iter_contains; simpl.
  pose proof (iter_contains_from_rest f id src) as [Hsuffix _].
  destruct (iter_contains_from f id src) as [found rest] eqn:Hrun.
  simpl in Hsuffix.
  assert (filter (λ id, id ∉ f <$> src) ids
            `sublist_of` keep_not_in ids {| map_fun := f; map_src := rest |})
    as Hrest.
  { etrans; [| apply IH]. apply filter_sublist_mono.
    intros x Hx Hin. apply Hx.
    destruct Hsuffix as [front ->]. rewrite fmap_app, elem_of_app. auto. }
  rewrite filter_cons.
  destruct (decide (id ∉ f <$> src)) as [Hmiss|Hhit].
  - rewrite (iter_contains_from_miss f id src Hmiss) in Hrun.
    injection Hrun as <- <-. simpl. by apply sublist_skip.
  - destruct found; simpl; [done | by apply sublist_cons].
Qed.

(** X3. The ids returned are ids given, in their order, and every id that is
    the [str] of no item of [omit_ids] is among them. *)
Theorem get_bulk_action_ids_between (ids omit_ids : list atom) :
  filter (λ id, id ∉ str <$> omit_ids) ids
    `sublist_of` get_bulk_action_ids ids omit_ids
  ∧ get_bulk_action_ids ids omit_ids `sublist_of` ids.
Proof.
  unfold get_bulk_action_ids; simpl. split.
  - apply keep_not_in_keeps.
  - apply keep_not_in_sublist.
Qed.

Lemma keep_not_in_length ids it :
  (length ids ≤ length (keep_not_in ids it) + length (map_src it))%nat.
Proof.
  revert it. induction ids as [|id ids IH]; intros it; simpl; [lia |].
  unfold iter_contains.
  pose proof (iter_contains_from_rest (map_fun it) id (map_src it))
    as [Hsuffix Hshorter].
  destruct (iter_contains_from (map_fun it) id (map_src it))
    as [found rest]; simpl in *.
  pose proof (IH {| map_fun := map_fun it; map_src := rest |}) as Hrest.
  simpl in Hrest. apply suffix_length in Hsuffix.
  destruct found; simpl.
  - specialize (Hshorter eq_refl). lia.
  - lia.
Qed.

(** X4. Each id left out uses up an item of [omit_ids]: no more ids are
    left out than [omit_ids] has items. *)
Theorem get_bulk_action_ids_length (ids omit_ids : list atom) :
  (length ids
   ≤ length (get_bulk_action_ids ids omit_ids) + length omit_ids)%nat.
Proof.
  unfold get_bulk_action_ids; simpl.
  apply (keep_not_in_length ids (py_map str omit_ids)).
Qed.

(** X5. The [map] object is used up by the first membership test that
    fails: when the first id is the [str] of no item of [omit_ids], the ids
    come back whole, the listed ones included. *)
Theorem get_bulk_action_ids_first_miss (id : atom) (ids omit_ids : list atom) :
  id ∉ str <$> omit_ids →
  get_bulk_action_ids (id :: ids) omit_ids = id :: ids.
Proof.
  intros Hmiss. unfold get_bulk_action_ids; simpl.
  unfold iter_contains; simpl.
  rewrite (iter_contains_from_miss str id omit_ids Hmiss). simpl.
  by rewrite keep_not_in_exhausted.
Qed.

Lemma get_bulk_action_ids_first_miss_witness :
  get_bulk_action_ids [AStr "9"; AStr "2"; AStr "1"] [AInt 1; AInt 2]
  = [AStr "9"; AStr "2"; AStr "1"].
Proof.
  apply get_bulk_action_ids_first_miss.
  vm_compute. intros Hin.
  repeat (apply elem_of_cons in Hin as [Hin | Hin]; [discriminate |]).
  by apply elem_of_nil in Hin.
Defined.

(** X6. With no [omit_ids] (the default) the ids come back as given. *)
Theorem get_bulk_action_ids_default (ids : list atom) :
  get_bulk_action_ids ids [] = ids.
Proof. unfold get_bulk_action_ids; simpl. apply keep_not_in_exhausted. Qed.

(** X7. Ids that stand first and are, one for one and in the same order,
    the [str] of the items [omit_ids] starts with are all left out. *)
Theorem get_bulk_action_ids_aligned (front ids omit_ids : list atom) :
  get_bulk_action_ids ((str <$> front) ++ ids)%list (front ++ omit_ids)%list
  = get_bulk_action_ids ids omit_ids.
Proof.
  induction front as [|o front IH]; [done |].
  rewrite <- IH. unfold get_bulk_action_ids; simpl.
  unfold iter_contains; simpl. unfold py_eq.
  by rewrite bool_decide_eq_true_2.
Qed.

(** *** bulk_delete *)

Lemma bulk_delete_leaves_clean ids s : clean_session (bulk_delete ids s).2.
Proof.
  rewrite ResourceSpec.bulk_delete_eq. intros o i Hi. simpl in Hi.
  by eapply ResourceSpec.flushed_session_clean.
Qed.



(** X9. Deleting the same ids again deletes nothing more: the second call
    returns 0 and leaves the table as the first left it. *)
Theorem bulk_delete_twice (ids : list Z) (s : db) :
  (bulk_delete ids (bulk_delete ids s).2).1 = Return 0%nat
  ∧ table (bulk_delete ids (bulk_delete ids s).2).2
    = table (bulk_delete ids s).2.
Proof.
  rewrite (ResourceSpec.bulk_delete_eq ids (bulk_delete ids s).2).
  rewrite (ResourceSpec.written_clean _ (bulk_delete_leaves_clean ids s)).
  rewrite (ResourceSpec.bulk_delete_eq ids s). simpl. split.
  - rewrite ResourceSpec.filter_none; [done |].
    intros r Hr. apply list_elem_of_filter in Hr. tauto.
  - apply ResourceSpec.filter_all.
    intros r Hr. apply list_elem_of_filter in Hr. tauto.
Qed.

Lemma filter_not_in_app (ids1 ids2 : list Z) (l : list row) :
  filter (λ r, row_id r ∉ ids2) (filter (λ r, row_id r ∉ ids1) l)
  = filter (λ r, row_id r ∉ (ids1 ++ ids2)%list) l.
Proof.
  induction l as [|r l IH]; [done |].
  rewrite (filter_cons (λ r, row_id r ∉ ids1)),
          (filter_cons (λ r, row_id r ∉ (ids1 ++ ids2)%list)).
  destruct (decide (row_id r ∉ ids1)) as [H1|H1].
  - rewrite filter_cons. destruct (decide (row_id r ∉ ids2)) as [H2|H2].
    + rewrite decide_True; [by rewrite IH |]. rewrite elem_of_app. tauto.
    + rewrite decide_False; [done |]. rewrite elem_of_app. tauto.
  - rewrite decide_False; [done |]. rewrite elem_of_app. tauto.
Qed.

Lemma filter_in_app_length (ids1 ids2 : list Z) (l : list row) :
  (length (filter (λ r, row_id r ∈ ids1) l)
   + length (filter (λ r, row_id r ∈ ids2) (filter (λ r, row_id r ∉ ids1) l))
   = length (filter (λ r, row_id r ∈ (ids1 ++ ids2)%list) l))%nat.
Proof.
  induction l as [|r l IH]; [done |].
  rewrite (filter_cons (λ r, row_id r ∈ ids1)),
          (filter_cons (λ r, row_id r ∉ ids1)),
          (filter_cons (λ r, row_id r ∈ (ids1 ++ ids2)%list)).
  destruct (decide (row_id r ∈ ids1)) as [H1|H1].
  - rewrite decide_False by tauto.
    rewrite decide_True by (rewrite elem_of_app; tauto). simpl. lia.
  - rewrite decide_True by done. rewrite filter_cons.
    destruct (decide (row_id r ∈ ids2)) as [H2|H2].
    + rewrite decide_True by (rewrite elem_of_app; tauto). simpl. lia.
    + rewrite decide_False by (rewrite elem_of_app; tauto). lia.
Qed.

(** X10. Two deletes in a row leave the table one delete of both lists of
    ids leaves, and the two counts add up to its count. *)
Theorem bulk_delete_then (ids1 ids2 : list Z) (s : db) :
  ∃ n1 n2 n12 : nat,
    (bulk_delete ids1 s).1 = Return n1
    ∧ (bulk_delete ids2 (bulk_delete ids1 s).2).1 = Return n2
    ∧ (bulk_delete (ids1 ++ ids2)%list s).1 = Return n12
    ∧ (n1 + n2 = n12)%nat
    ∧ table (bulk_delete ids2 (bulk_delete ids1 s).2).2
      = table (bulk_delete (ids1 ++ ids2)%list s).2.
Proof.
  rewrite (ResourceSpec.bulk_delete_eq ids2 (bulk_delete ids1 s).2).
  rewrite (ResourceSpec.written_clean _ (bulk_delete_leaves_clean ids1 s)).
  rewrite !ResourceSpec.bulk_delete_eq; simpl.
  eexists _, _, _. repeat split.
  - apply filter_in_app_length.
  - apply filter_not_in_app.
Qed.

(** X11. Only the set of ids counts: lists with the same members delete the
    same rows and return the same number, however often an id is repeated
    and in whatever order. *)
Theorem bulk_delete_same_members (ids1 ids2 : list Z) (s : db) :
  (∀ id, id ∈ ids1 ↔ id ∈ ids2) →
  (bulk_delete ids1 s).1 = (bulk_delete ids2 s).1
  ∧ table (bulk_delete ids1 s).2 = table (bulk_delete ids2 s).2.
Proof.
  intros Hsame. rewrite !ResourceSpec.bulk_delete_eq; simpl. split.
  - do 2 f_equal. apply list_filter_iff. intros r. apply Hsame.
  - apply list_filter_iff. intros r. by rewrite Hsame.
Qed.

Lemma bulk_delete_same_members_witness :
  (bulk_delete [2; 3; 2] sample_db).1 = (bulk_delete [3; 2] sample_db).1
  ∧ table (bulk_delete [2; 3; 2] sample_db).2
    = table (bulk_delete [3; 2] sample_db).2.
Proof.
  apply bulk_delete_same_members. intros id.
  rewrite !elem_of_cons, !elem_of_nil. tauto.
Defined.

(** *** update *)

(** X12. Assigning to an instance with no unflushed change the values it
    holds already (or values under names it does not have) leaves it as it
    was, [updated_at] included. *)
Theorem update_same_values (self : loc) (values : list (string * value))
    (s : db) (inst : instance) :
  objects s !! self = Some inst →
  dirty inst = false →
  NoDup values.*1 →
  (∀ key v, (key, v) ∈ values →
     refuses inst !! key = None
     ∧ (attrs inst !! key = Some v ∨ attrs inst !! key = None)) →
  (update self values s).1 = Return self
  ∧ objects (update self values s).2 !! self = Some inst.
Proof.
  intros Hself Hclean Hnodup Hsame.
  destruct (ResourceSpec.update_eq self values s inst Hself Hnodup)
    as (attrs1 & Hattrs1 & ->).
  { intros key v Hin. by destruct (Hsame key v Hin). }
  simpl. split; [done |].
  rewrite lookup_fmap, lookup_insert_eq. simpl.
  assert (attrs1 = attrs inst) as ->.
  { apply map_eq. intros key. rewrite Hattrs1. unfold assigned.
    destruct (attrs inst !! key) as [old|] eqn:Hold; [| done].
    destruct (list_to_map values !! key) as [v|] eqn:Hv; [| done]. simpl.
    apply elem_of_list_to_map_2 in Hv.
    destruct (Hsame key v Hv) as [_ [Heq | Heq]]; congruence. }
  f_equal. destruct inst as [id a f r]; simpl in *.
  by apply ResourceSpec.dirty_false_flush.
Qed.

Lemma update_same_values_witness :
  objects (update 7%positive [("name", VStr "press");
                              ("shoe_size", VInt 42)] sample_db).2
    !! 7%positive
  = Some (loaded_machine_model "press").
Proof.
  apply (update_same_values 7%positive _ sample_db
           (loaded_machine_model "press")).
  - vm_compute. reflexivity.
  - vm_compute. reflexivity.
  - compute_done.
  - intros key v Hin.
    apply elem_of_cons in Hin as [[= -> ->] | Hin].
    { split; [vm_compute; reflexivity | left; vm_compute; reflexivity]. }
    apply list_elem_of_singleton in Hin as [= -> ->].
    split; [vm_compute; reflexivity | right; vm_compute; reflexivity].
Defined.





Lemma for_each_app {S A} (body : A → M S unit) (l1 l2 : list A) (s : S) :
  for_each (l1 ++ l2) body s = (for_each l1 body >> for_each l2 body) s.
Proof.
  revert s. induction l1 as [|x l1 IH]; intros s; [reflexivity |].
  change (bind (body x) (λ _, for_each (l1 ++ l2) body) s
          = bind (bind (body x) (λ _, for_each l1 body))
                 (λ _, for_each l2 body) s).
  unfold bind at 1 2 3. destruct (body x s) as [[[]|e] s1]; [| done].
  rewrite IH. reflexivity.
Qed.

(** X29. When a key of [values] names an attribute that refuses
    assignment, and no key before it does, [update] raises at that key what
    the refusal raises: the attributes named by the keys before it hold the
    values given, in memory only; the keys after it are not looked at;
    nothing is committed, the table is as it was. *)
Theorem update_refused (self : loc) (before after : list (string * value))
    (key : string) (v : value) (e : exn) (s : db) (inst : instance) :
  objects s !! self = Some inst →
  NoDup before.*1 →
  (∀ k w, (k, w) ∈ before → refuses inst !! k = None) →
  refuses inst !! key = Some e →
  ∃ attrs1,
    update self (before ++ (key, v) :: after) s
    = (Raise e,
       with_objects s (<[self := with_attrs inst attrs1]> (objects s)))
    ∧ ∀ k, attrs1 !! k = assigned (attrs inst) (list_to_map before) k.
Proof.
  intros Hself Hnodup Hfree Hrefused.
  destruct (ResourceSpec.update_loop_run self before Hnodup s inst Hself Hfree)
    as (attrs1 & Hrun & Hattrs1).
  exists attrs1. split; [| done].
  unfold update. unfold bind at 1. rewrite for_each_app.
  unfold bind at 1. rewrite Hrun. simpl. unfold bind at 1.
  rewrite (ResourceSpec.update_step_refused self key v _
             (with_attrs inst attrs1) e);
    [done | simpl; apply lookup_insert_eq | done].
Qed.

Lemma update_refused_witness :
  ∃ attrs1,
    update 7%positive
      [("name", VStr "lathe"); ("__class__", VInt 5);
       ("created_at", VStr "2026-02-02T00:00:00")] sample_db
    = (Raise (TypeError "__class__ must be set to a class, not an int"),
       with_objects sample_db
         (<[7%positive := with_attrs (loaded_machine_model "press") attrs1]>
            (objects sample_db)))
    ∧ attrs1 !! "name" = Some (VStr "lathe")
    ∧ attrs1 !! "created_at" = Some (VStr "2026-01-01T08:00:00").
Proof.
  destruct (update_refused 7%positive [("name", VStr "lathe")]
              [("created_at", VStr "2026-02-02T00:00:00")]
              "__class__" (VInt 5)
              (TypeError "__class__ must be set to a class, not an int")
              sample_db (loaded_machine_model "press"))
    as (attrs1 & Hrun & Hattrs1).
  - vm_compute. reflexivity.
  - compute_done.
  - intros k w Hin. apply list_elem_of_singleton in Hin as [= -> ->].
    vm_compute. reflexivity.
  - vm_compute. reflexivity.
  - exists attrs1. split; [exact Hrun |].
    rewrite !Hattrs1. split; vm_compute; reflexivity.
Defined.

End ResourceMore.

(** * Further properties of the authentication view *)

Module AuthMore.
Import Auth.

Section handlers.
Context {T : Type}.
Variable login_schema : schema.
Variable manager_impl : authentication_manager T.

(** *** login *)

(** X15. [login] turns nothing but a [ValidationError] of [load] into an
    answer: an exception that [request.get_json()] raises, or any other
    exception that [load] raises, leaves the handler as raised, and the
    manager is neither called nor changed. *)
Theorem login_propagates_other_errors (req : request) (w : world T) (e : exn) :
  get_json req = Raise e
  ∨ (∃ json, get_json req = Return json
             ∧ load login_schema json = Raise e
             ∧ ∀ messages, e ≠ ValidationError messages) →
  login login_schema manager_impl req w = (Raise e, w).
Proof.
  intros [Hjson | (json & Hjson & Hload & Hother)];
    unfold login, bind, try_except, lift; rewrite Hjson; [done |].
  rewrite Hload. destruct e; try done. by destruct (Hother messages).
Qed.

(** X16. The call on the manager stands after the [try]: an exception that
    [authentication_manager.login] raises leaves the handler as raised, a
    [ValidationError] included (no 422 is made of it), with the call
    recorded and the manager's state as the call left it. *)
Theorem login_manager_error (req : request) (w : world T) (json data : value)
    (e : exn) (t' : T) :
  get_json req = Return json →
  load login_schema json = Return data →
  am_login manager_impl data (manager w) = (Raise e, t') →
  login login_schema manager_impl req w
  = (Raise e, {| manager := t'; calls := (calls w ++ [Login data])%list |}).
Proof.
  intros Hjson Hload Hlogin.
  unfold login, bind, try_except, lift. rewrite Hjson, Hload. simpl.
  unfold invoke. by rewrite Hlogin.
Qed.

(** X17. Whatever the request, [login] calls the manager at most once, and
    only with data that [load] returned for the request's payload. *)
Theorem login_calls (req : request) (w : world T) :
  calls (login login_schema manager_impl req w).2 = calls w
  ∨ ∃ json data,
      get_json req = Return json
      ∧ load login_schema json = Return data
      ∧ calls (login login_schema manager_impl req w).2
        = (calls w ++ [Login data])%list.
Proof.
  unfold login, bind, try_except, lift, invoke.
  destruct (get_json req) as [json|e] eqn:Hjson; [| by left].
  destruct (load login_schema json) as [data|e] eqn:Hload.
  - right. exists json, data. repeat split; try done. simpl.
    by destruct (am_login manager_impl data (manager w)) as [[v|e] t'].
  - left. by destruct e.
Qed.

(** *** token revocation *)

(** X18. A token without a [jti] entry: the subscript stands before the
    [try], so both handlers raise [KeyError] and the manager is neither
    called nor changed. *)
Theorem revoke_missing_jti (req : request) (w : world T) :
  get_jwt req !! "jti" = None →
  access_token_revoke manager_impl req w = (Raise (KeyError "jti"), w)
  ∧ refresh_token_revoke manager_impl req w = (Raise (KeyError "jti"), w).
Proof.
  intros Hjti. unfold access_token_revoke, refresh_token_revoke, subscript.
  by rewrite Hjti.
Qed.

(** X19. A revocation that fails is answered with the 500 message, but what
    [revoke_token] did to the manager's state before it raised stays done,
    and the call stays recorded: nothing is rolled back. *)
Theorem revoke_failure_keeps_state (req : request) (w : world T) (jti : value)
    (e : exn) (t' : T) :
  get_jwt req !! "jti" = Some jti →
  am_revoke_token manager_impl jti (manager w) = (Raise e, t') →
  access_token_revoke manager_impl req w
  = (Return went_wrong,
     {| manager := t'; calls := (calls w ++ [RevokeToken jti])%list |})
  ∧ refresh_token_revoke manager_impl req w
    = (Return went_wrong,
       {| manager := t'; calls := (calls w ++ [RevokeToken jti])%list |}).
Proof.
  intros Hjti Hraise.
  rewrite (AuthSpec.revoke_run manager_impl
             (access_token_revoke manager_impl) req w jti),
          (AuthSpec.revoke_run manager_impl
             (refresh_token_revoke manager_impl) req w jti) by auto.
  by rewrite Hraise.
Qed.

(** X20. The handlers pass the token's [jti] on as it is, [None] included,
    and use nothing else of the request: two requests whose tokens have the
    same [jti] are answered alike. *)
Theorem revoke_depends_on_jti_only (req1 req2 : request) (w : world T) :
  get_jwt req1 !! "jti" = get_jwt req2 !! "jti" →
  access_token_revoke manager_impl req1 w
  = access_token_revoke manager_impl req2 w
  ∧ refresh_token_revoke manager_impl req1 w
    = refresh_token_revoke manager_impl req2 w.
Proof.
  intros Hsame. unfold access_token_revoke, refresh_token_revoke, subscript.
  by rewrite Hsame.
Qed.

End handlers.

Lemma login_propagates_other_errors_witness :
  login sample_schema sample_manager
    {| get_json := Raise BadRequest; get_jwt := ∅ |} fresh_world
    = (Raise BadRequest, fresh_world)
  ∧ login {| load := λ _, Raise (KeyError "email") |} sample_manager
      (request_of VNone ∅) fresh_world
    = (Raise (KeyError "email"), fresh_world).
Proof.
  split.
  - apply login_propagates_other_errors. by left.
  - apply login_propagates_other_errors. right. exists VNone.
    split; [reflexivity |]. split; [reflexivity | discriminate].
Defined.

Lemma login_manager_error_witness :
  login sample_schema strict_manager
    (request_of (VDict [("email", VStr "client@endo.com");
                        ("password", VStr "wrong")]) ∅)
    fresh_world
  = (Raise (ValidationError (VStr "Invalid credentials")),
     {| manager := [];
        calls := [Login (VDict [("email", VStr "client@endo.com");
                                ("password", VStr "wrong")])] |}).
Proof.
  apply (login_manager_error sample_schema strict_manager _ fresh_world
           (VDict [("email", VStr "client@endo.com");
                   ("password", VStr "wrong")]));
    reflexivity.
Defined.

Lemma revoke_missing_jti_witness :
  access_token_revoke sample_manager (request_of VNone ∅) fresh_world
    = (Raise (KeyError "jti"), fresh_world)
  ∧ refresh_token_revoke sample_manager (request_of VNone ∅) fresh_world
    = (Raise (KeyError "jti"), fresh_world).
Proof. apply revoke_missing_jti. vm_compute. reflexivity. Defined.

Lemma revoke_failure_keeps_state_witness :
  access_token_revoke strict_manager
    (request_of VNone {[ "jti" := VStr "abc" ]}) fresh_world
    = (Return went_wrong,
       {| manager := [VStr "abc"]; calls := [RevokeToken (VStr "abc")] |})
  ∧ refresh_token_revoke strict_manager
      (request_of VNone {[ "jti" := VStr "abc" ]}) fresh_world
    = (Return went_wrong,
       {| manager := [VStr "abc"]; calls := [RevokeToken (VStr "abc")] |}).
Proof.
  apply (revoke_failure_keeps_state strict_manager _ fresh_world (VStr "abc")
           (RuntimeError "store is down") [VStr "abc"]).
  - vm_compute. reflexivity.
  - reflexivity.
Defined.

Lemma revoke_depends_on_jti_only_witness :
  access_token_revoke sample_manager
    (request_of (VStr "ignored") {[ "jti" := VStr "abc"; "sub" := VInt 1 ]})
    fresh_world
    = access_token_revoke sample_manager
        (request_of VNone {[ "jti" := VStr "abc" ]}) fresh_world
  ∧ refresh_token_revoke sample_manager
      (request_of (VStr "ignored") {[ "jti" := VStr "abc"; "sub" := VInt 1 ]})
      fresh_world
    = refresh_token_revoke sample_manager
        (request_of VNone {[ "jti" := VStr "abc" ]}) fresh_world.
Proof. apply revoke_depends_on_jti_only. vm_compute. reflexivity. Defined.

End AuthMore.

(** * Further properties of the fixtures *)

Module ConftestMore.
Import Conftest ConftestSpec.

(** *** The date helpers *)

(** X21. Whether a date helper returns or raises, it has only drawn dates:
    at most as many as the recursion depth allows, and the tables, the
    customers, the machines and the draws from [random] are as they
    were. *)
Theorem date_helpers_only_draw (E : env) (depth : nat) (machine : Z)
    (w : world) :
  (∃ k, (k ≤ depth)%nat
        ∧ (_get_rotation_date E depth machine w).2
          = with_fake_drawn w (fake_drawn w + k))
  ∧ (∃ k, (k ≤ depth)%nat
          ∧ (_get_operating_time_date E depth machine w).2
            = with_fake_drawn w (fake_drawn w + k)).
Proof.
  split; revert w; induction depth as [|depth IH]; intros w.
  - exists 0%nat. split; [lia |]. simpl. rewrite Nat.add_0_r. by destruct w.
  - rewrite get_rotation_date_step.
    destruct (rotation_taken w (drawn E w 0) machine).
    + destruct (IH (with_fake_drawn w (S (fake_drawn w)))) as (k & Hk & ->).
      exists (S k). split; [lia |].
      unfold with_fake_drawn; simpl. f_equal. lia.
    + exists 1%nat. split; [lia |].
      unfold with_fake_drawn; simpl. f_equal. lia.
  - exists 0%nat. split; [lia |]. simpl. rewrite Nat.add_0_r. by destruct w.
  - rewrite get_operating_time_date_step.
    destruct (operating_time_taken w (drawn E w 0) machine).
    + destruct (IH (with_fake_drawn w (S (fake_drawn w)))) as (k & Hk & ->).
      exists (S k). split; [lia |].
      unfold with_fake_drawn; simpl. f_equal. lia.
    + exists 1%nat. split; [lia |].
      unfold with_fake_drawn; simpl. f_equal. lia.
Qed.

Lemma get_rotation_date_raises E machine depth :
  ∀ w,
    (_get_rotation_date E depth machine w).1 = Raise RecursionError
    ↔ ∀ j, (j < depth)%nat → rotation_taken w (drawn E w j) machine = true.
Proof.
  induction depth as [|depth IH]; intros w.
  - split; [intros _ j Hj; lia | done].
  - rewrite get_rotation_date_step.
    destruct (rotation_taken w (drawn E w 0) machine) eqn:Hfirst.
    + rewrite IH. split.
      * intros Hrest [|j] Hj; [done |].
        rewrite <- (drawn_shift E w). apply Hrest. lia.
      * intros Hall j Hj. rewrite (drawn_shift E w). apply Hall. lia.
    + split; [done |]. intros Hall.
      specialize (Hall 0%nat ltac:(lia)). congruence.
Qed.

Lemma get_operating_time_date_raises E machine depth :
  ∀ w,
    (_get_operating_time_date E depth machine w).1 = Raise RecursionError
    ↔ ∀ j, (j < depth)%nat →
           operating_time_taken w (drawn E w j) machine = true.
Proof.
  induction depth as [|depth IH]; intros w.
  - split; [intros _ j Hj; lia | done].
  - rewrite get_operating_time_date_step.
    destruct (operating_time_taken w (drawn E w 0) machine) eqn:Hfirst.
    + rewrite IH. split.
      * intros Hrest [|j] Hj; [done |].
        rewrite <- (drawn_shift E w). apply Hrest. lia.
      * intros Hall j Hj. rewrite (drawn_shift E w). apply Hall. lia.
    + split; [done |]. intros Hall.
      specialize (Hall 0%nat ltac:(lia)). congruence.
Qed.

Lemma get_rotation_date_outcome E machine depth :
  ∀ w, (∃ date, (_get_rotation_date E depth machine w).1 = Return date)
       ∨ (_get_rotation_date E depth machine w).1 = Raise RecursionError.
Proof.
  induction depth as [|depth IH]; intros w; [by right |].
  rewrite get_rotation_date_step.
  destruct (rotation_taken w (drawn E w 0) machine); [apply IH |].
  left. by eexists.
Qed.

Lemma get_operating_time_date_outcome E machine depth :
  ∀ w, (∃ date, (_get_operating_time_date E depth machine w).1 = Return date)
       ∨ (_get_operating_time_date E depth machine w).1 = Raise RecursionError.
Proof.
  induction depth as [|depth IH]; intros w; [by right |].
  rewrite get_operating_time_date_step.
  destruct (operating_time_taken w (drawn E w 0) machine); [apply IH |].
  left. by eexists.
Qed.

(** X22. A date helper ends in [RecursionError] exactly when every date
    drawn within the recursion depth has a record for the machine; in every
    other run it returns a date. It raises nothing else. *)
Theorem date_helpers_raise_iff_exhausted (E : env) (depth : nat) (machine : Z)
    (w : world) :
  ((_get_rotation_date E depth machine w).1 = Raise RecursionError
   ↔ ∀ j, (j < depth)%nat → rotation_taken w (drawn E w j) machine = true)
  ∧ ((∃ date, (_get_rotation_date E depth machine w).1 = Return date)
     ∨ (_get_rotation_date E depth machine w).1 = Raise RecursionError)
  ∧ ((_get_operating_time_date E depth machine w).1 = Raise RecursionError
     ↔ ∀ j, (j < depth)%nat →
            operating_time_taken w (drawn E w j) machine = true)
  ∧ ((∃ date, (_get_operating_time_date E depth machine w).1 = Return date)
     ∨ (_get_operating_time_date E depth machine w).1 = Raise RecursionError).
Proof.
  split; [apply get_rotation_date_raises |].
  split; [apply get_rotation_date_outcome |].
  split; [apply get_operating_time_date_raises |].
  apply get_operating_time_date_outcome.
Qed.

Lemma existsb_none {A} (f : A → bool) (l : list A) :
  (∀ x, x ∈ l → f x = false) → existsb f l = false.
Proof.
  induction l as [|x l IH]; intros Hnone; [done |]. simpl.
  rewrite (Hnone x) by left. apply IH. intros y Hy. apply Hnone. by right.
Qed.

(** X23. Only the machine's own records stand in the way: for a machine
    with no record in the table, a helper with any depth to spare returns
    the first date drawn, whatever the other machines have recorded. *)
Theorem date_helpers_ignore_other_machines (E : env) (depth : nat)
    (machine : Z) (w : world) :
  ((∀ r, r ∈ rotation_table w → rotation_customer_machine_id r ≠ machine) →
   _get_rotation_date E (S depth) machine w
   = (Return (drawn E w 0), with_fake_drawn w (S (fake_drawn w))))
  ∧ ((∀ r, r ∈ operating_time_table w →
           operating_time_customer_machine_id r ≠ machine) →
     _get_operating_time_date E (S depth) machine w
     = (Return (drawn E w 0), with_fake_drawn w (S (fake_drawn w)))).
Proof.
  split; intros Hother.
  - rewrite get_rotation_date_step. unfold rotation_taken.
    rewrite existsb_none; [done |]. intros r Hr.
    apply bool_decide_eq_false. intros [_ Hm]. by apply (Hother r).
  - rewrite get_operating_time_date_step. unfold operating_time_taken.
    rewrite existsb_none; [done |]. intros r Hr.
    apply bool_decide_eq_false. intros [_ Hm]. by apply (Hother r).
Qed.

Lemma date_helpers_ignore_other_machines_witness :
  _get_rotation_date sample_env 1 11 sample_world
  = (Return "2026-01-01", with_fake_drawn sample_world 1).
Proof.
  destruct (date_helpers_ignore_other_machines sample_env 0 11 sample_world)
    as [Hrot _].
  apply Hrot. intros r Hr. apply list_elem_of_singleton in Hr. by subst r.
Defined.

(** X24. The two measurement types do not meet: the operating-time records
    have no say in the date [_get_rotation_date] settles on, nor the
    rotation records in the date [_get_operating_time_date] settles on. *)
Theorem date_helpers_per_measurement_type (E : env) (depth : nat)
    (machine : Z) (w : world) (rows : list operating_time)
    (rows' : list rotation) :
  (_get_rotation_date E depth machine (with_operating_time_table w rows)).1
  = (_get_rotation_date E depth machine w).1
  ∧ (_get_operating_time_date E depth machine
       (with_rotation_table w rows')).1
    = (_get_operating_time_date E depth machine w).1.
Proof.
  split; revert w; induction depth as [|depth IH]; intros w; try done.
  - rewrite !get_rotation_date_step.
    change (rotation_taken (with_operating_time_table w rows)
              (drawn E (with_operating_time_table w rows) 0) machine)
      with (rotation_taken w (drawn E w 0) machine).
    destruct (rotation_taken w (drawn E w 0) machine); [| done].
    apply (IH (with_fake_drawn w (S (fake_drawn w)))).
  - rewrite !get_operating_time_date_step.
    change (operating_time_taken (with_rotation_table w rows')
              (drawn E (with_rotation_table w rows') 0) machine)
      with (operating_time_taken w (drawn E w 0) machine).
    destruct (operating_time_taken w (drawn E w 0) machine); [| done].
    apply (IH (with_fake_drawn w (S (fake_drawn w)))).
Qed.

(** *** The seeding fixtures *)

(** A loop that ends normally, each turn of which appends to a trace what
    [g] says of its item, appends what [g] says of each item in turn. *)
Lemma for_each_trace {S A B} (P : list B → S → Prop) (g : A → list B)
    (body : A → M S unit) (l : list A) :
  (∀ x t s s', P t s → body x s = (Return tt, s') → P (t ++ g x)%list s') →
  ∀ t s s', P t s → for_each l body s = (Return tt, s') →
            P (t ++ (l ≫= g))%list s'.
Proof.
  intros Hbody. induction l as [|x l IH]; intros t s s' Hs; simpl.
  - intros [= <-]. by rewrite app_nil_r.
  - unfold bind. destruct (body x s) as [[[]|e] s1] eqn:Hx; [| done].
    intros Hrest. rewrite app_assoc.
    eapply IH; [| exact Hrest]. by eapply Hbody.
Qed.

Lemma randrange_run E start stop w :
  start < stop →
  ∃ n, randrange E start stop w
       = (Return n, with_random_drawn w (S (random_drawn w)))
       ∧ start ≤ n < stop.
Proof.
  intros Hlt. eexists. split; [reflexivity |].
  pose proof (Z.mod_pos_bound (random_int E (random_drawn w)) (stop - start)).
  lia.
Qed.

Lemma seed_rotation_trace E depth machine w0 t w w' :
  rotations_seeded w0 t w →
  (let* date := _get_rotation_date E depth machine in
   let* normal := randrange E 200 600 in
   let* reverse := randrange E 200 600 in
   RotationService_create
     {| rotation_date := date;
        shaft_a_normal_rotation := normal;
        shaft_a_reverse_rotation := reverse;
        rotation_customer_machine_id := machine |}) w = (Return tt, w') →
  rotations_seeded w0 (t ++ [machine]) w'.
Proof.
  intros (seeded & Htable & Hids & Hbounds & Hother & Hcust & Hmach).
  unfold bind at 1.
  destruct (_get_rotation_date E depth machine w) as [[date|e] w1] eqn:Hget;
    [| done].
  destruct (get_rotation_date_frame E depth machine w) as [k Hframe].
  rewrite Hget in Hframe; simpl in Hframe. subst w1.
  unfold bind at 1.
  destruct (randrange_run E 200 600 (with_fake_drawn w (fake_drawn w + k)))
    as (normal & -> & Hnormal); [lia |].
  unfold bind at 1.
  destruct (randrange_run E 200 600
              (with_random_drawn (with_fake_drawn w (fake_drawn w + k))
                 (S (random_drawn (with_fake_drawn w (fake_drawn w + k))))))
    as (reverse & -> & Hreverse); [lia |].
  unfold RotationService_create, modify; simpl. intros [= <-].
  exists (seeded ++ [ {| rotation_date := date;
                         shaft_a_normal_rotation := normal;
                         shaft_a_reverse_rotation := reverse;
                         rotation_customer_machine_id := machine |} ])%list.
  simpl. split; [by rewrite Htable, app_assoc |].
  split; [by rewrite fmap_app, Hids |].
  split; [| done].
  apply Forall_app. split; [done |].
  constructor; [by split | constructor].
Qed.

Lemma seed_operating_time_trace E depth machine w0 t w w' :
  operating_times_seeded w0 t w →
  (let* date := _get_operating_time_date E depth machine in
   let* duration := randrange E 10000 50000 in
   OperatingTimeService_create
     {| operating_time_date := date;
        duration := duration;
        operating_time_customer_machine_id := machine |}) w = (Return tt, w') →
  operating_times_seeded w0 (t ++ [machine]) w'.
Proof.
  intros (seeded & Htable & Hids & Hbounds & Hother & Hcust & Hmach).
  unfold bind at 1.
  destruct (_get_operating_time_date E depth machine w)
    as [[date|e] w1] eqn:Hget; [| done].
  destruct (get_operating_time_date_frame E depth machine w) as [k Hframe].
  rewrite Hget in Hframe; simpl in Hframe. subst w1.
  unfold bind at 1.
  destruct (randrange_run E 10000 50000
              (with_fake_drawn w (fake_drawn w + k)))
    as (d & -> & Hd); [lia |].
  unfold OperatingTimeService_create, modify; simpl. intros [= <-].
  exists (seeded ++ [ {| operating_time_date := date;
                         duration := d;
                         operating_time_customer_machine_id := machine |} ])%list.
  simpl. split; [by rewrite Htable, app_assoc |].
  split; [by rewrite fmap_app, Hids |].
  split; [| done].
  apply Forall_app. split; [done |].
  constructor; [done | constructor].
Qed.

Lemma rotations_seeded_start w : rotations_seeded w [] w.
Proof. exists []. rewrite app_nil_r. repeat split; try done. Qed.

Lemma operating_times_seeded_start w : operating_times_seeded w [] w.
Proof. exists []. rewrite app_nil_r. repeat split; try done. Qed.

Lemma rotations_trace E depth w w' :
  rotations E depth w = (Return tt, w') → rotations_seeded w (visited w) w'.
Proof.
  unfold rotations, UserService_get_all_customers.
  unfold bind at 1, get at 1. unfold bind at 1, ret at 1.
  intros Hrun.
  apply (for_each_trace (rotations_seeded w)
           (λ customer,
              filter (λ m, customer_id m = user_id customer)
                     (customer_machines w)
              ≫= λ machine, replicate 10 (machine_id machine))
           _ (customers w) ) with (t := []) in Hrun;
    [exact Hrun | | apply rotations_seeded_start].
  intros customer t s s' Hs.
  unfold CustomerMachine_query_filter.
  unfold bind at 1, get at 1. unfold bind at 1, ret at 1.
  assert (customer_machines s = customer_machines w) as ->
    by (by destruct Hs as (? & _ & _ & _ & _ & _ & ?)).
  apply (for_each_trace (rotations_seeded w)
           (λ machine, replicate 10 (machine_id machine))); [| done].
  intros machine t1 s1 s1' Hs1.
  apply (for_each_trace (rotations_seeded w)
           (λ _ : nat, [machine_id machine]) _ (seq 0 10)); [| done].
  intros i t2 s2 s2' Hs2. by apply seed_rotation_trace.
Qed.

Lemma operating_times_trace E depth w w' :
  operating_times E depth w = (Return tt, w') →
  operating_times_seeded w (visited w) w'.
Proof.
  unfold operating_times, UserService_get_all_customers.
  unfold bind at 1, get at 1. unfold bind at 1, ret at 1.
  intros Hrun.
  apply (for_each_trace (operating_times_seeded w)
           (λ customer,
              filter (λ m, customer_id m = user_id customer)
                     (customer_machines w)
              ≫= λ machine, replicate 10 (machine_id machine))
           _ (customers w) ) with (t := []) in Hrun;
    [exact Hrun | | apply operating_times_seeded_start].
  intros customer t s s' Hs.
  unfold CustomerMachine_query_filter.
  unfold bind at 1, get at 1. unfold bind at 1, ret at 1.
  assert (customer_machines s = customer_machines w) as ->
    by (by destruct Hs as (? & _ & _ & _ & _ & _ & ?)).
  apply (for_each_trace (operating_times_seeded w)
           (λ machine, replicate 10 (machine_id machine))); [| done].
  intros machine t1 s1 s1' Hs1.
  apply (for_each_trace (operating_times_seeded w)
           (λ _ : nat, [machine_id machine]) _ (seq 0 10)); [| done].
  intros i t2 s2 s2' Hs2. by apply seed_operating_time_trace.
Qed.

(** X25. A run of [rotations] (or [operating_times]) that completes has
    appended to its table, and to that table alone, one row per visit:
    customer by customer, for each machine of the customer ten rows bearing
    that machine's id, in this order. *)
Theorem fixtures_seed_ten_per_machine (E : env) (depth : nat) (w w' : world) :
  (rotations E depth w = (Return tt, w') →
   ∃ seeded,
     rotation_table w' = (rotation_table w ++ seeded)%list
     ∧ rotation_customer_machine_id <$> seeded = visited w
     ∧ operating_time_table w' = operating_time_table w)
  ∧ (operating_times E depth w = (Return tt, w') →
     ∃ seeded,
       operating_time_table w' = (operating_time_table w ++ seeded)%list
       ∧ operating_time_customer_machine_id <$> seeded = visited w
       ∧ rotation_table w' = rotation_table w).
Proof.
  split; intros Hrun.
  - destruct (rotations_trace E depth w w' Hrun)
      as (seeded & ? & ? & _ & ? & _). by exists seeded.
  - destruct (operating_times_trace E depth w w' Hrun)
      as (seeded & ? & ? & _ & ? & _). by exists seeded.
Qed.

(** X26. Every row a completed run appends is within the bounds drawn from:
    both shaft rotations from 200 up to 599, the duration from 10000 up to
    49999. *)
Theorem fixtures_seed_within_bounds (E : env) (depth : nat) (w w' : world) :
  (rotations E depth w = (Return tt, w') →
   ∃ seeded,
     rotation_table w' = (rotation_table w ++ seeded)%list
     ∧ Forall rotation_in_bounds seeded)
  ∧ (operating_times E depth w = (Return tt, w') →
     ∃ seeded,
       operating_time_table w' = (operating_time_table w ++ seeded)%list
       ∧ Forall operating_time_in_bounds seeded).
Proof.
  split; intros Hrun.
  - destruct (rotations_trace E depth w w' Hrun)
      as (seeded & ? & _ & ? & _). by exists seeded.
  - destruct (operating_times_trace E depth w w' Hrun)
      as (seeded & ? & _ & ? & _). by exists seeded.
Qed.

Lemma fixtures_seed_ten_per_machine_witness :
  ∃ seeded,
    rotation_table (rotations sample_env 5 sample_world).2
      = (rotation_table sample_world ++ seeded)%list
    ∧ rotation_customer_machine_id <$> seeded
      = (replicate 10 10 ++ replicate 10 12 ++ replicate 10 11)%list.
Proof.
  destruct (fixtures_seed_ten_per_machine sample_env 5 sample_world
              (rotations sample_env 5 sample_world).2) as [Hrot _].
  destruct Hrot as (seeded & Htable & Hids & _); [vm_compute; reflexivity |].
  exists seeded. split; [exact Htable |]. rewrite Hids.
  vm_compute. reflexivity.
Defined.

Lemma fixtures_seed_within_bounds_witness :
  ∃ seeded,
    operating_time_table (operating_times sample_env 5 sample_world).2
      = (operating_time_table sample_world ++ seeded)%list
    ∧ Forall operating_time_in_bounds seeded.
Proof.
  destruct (fixtures_seed_within_bounds sample_env 5 sample_world
              (operating_times sample_env 5 sample_world).2) as [_ Hot].
  apply Hot. vm_compute. reflexivity.
Defined.

(** A loop keeps an invariant of its body however it ends, and raises only
    what its body raises. *)
Lemma for_each_invariant_any {S A} (I : S → Prop) (Q : exn → Prop)
    (body : A → M S unit) (l : list A) :
  (∀ x s o s', I s → body x s = (o, s') →
               I s' ∧ ∀ e, o = Raise e → Q e) →
  ∀ s o s', I s → for_each l body s = (o, s') →
            I s' ∧ ∀ e, o = Raise e → Q e.
Proof.
  intros Hbody. induction l as [|x l IH]; intros s o s' Hs; simpl.
  - intros [= <- <-]. by split.
  - unfold bind. destruct (body x s) as [[[]|e] s1] eqn:Hx.
    + intros Hrest. eapply IH; [| exact Hrest]. by eapply Hbody.
    + intros [= <- <-]. by eapply Hbody.
Qed.

Lemma seed_rotation_any E depth machine w0 w o w' :
  rotations_inv w0 w →
  (let* date := _get_rotation_date E depth machine in
   let* normal := randrange E 200 600 in
   let* reverse := randrange E 200 600 in
   RotationService_create
     {| rotation_date := date;
        shaft_a_normal_rotation := normal;
        shaft_a_reverse_rotation := reverse;
        rotation_customer_machine_id := machine |}) w = (o, w') →
  rotations_inv w0 w' ∧ ∀ e, o = Raise e → e = RecursionError.
Proof.
  intros Hinv Hrun. destruct o as [[]|e].
  - split; [| done]. by eapply seed_rotation_inv.
  - revert Hrun. unfold bind at 1.
    pose proof (get_rotation_date_outcome E machine depth w) as Hout.
    destruct (get_rotation_date_frame E depth machine w) as [k Hframe].
    destruct (_get_rotation_date E depth machine w) as [[date|e'] w1];
      simpl in *; [done |].
    intros [= <- <-]. subst w1. split.
    + destruct Hinv as (? & ? & ? & ?). by repeat split.
    + intros e [= <-]. by destruct Hout as [[? ?] | [= ->]].
Qed.

Lemma seed_operating_time_any E depth machine w0 w o w' :
  operating_times_inv w0 w →
  (let* date := _get_operating_time_date E depth machine in
   let* duration := randrange E 10000 50000 in
   OperatingTimeService_create
     {| operating_time_date := date;
        duration := duration;
        operating_time_customer_machine_id := machine |}) w = (o, w') →
  operating_times_inv w0 w' ∧ ∀ e, o = Raise e → e = RecursionError.
Proof.
  intros Hinv Hrun. destruct o as [[]|e].
  - split; [| done]. by eapply seed_operating_time_inv.
  - revert Hrun. unfold bind at 1.
    pose proof (get_operating_time_date_outcome E machine depth w) as Hout.
    destruct (get_operating_time_date_frame E depth machine w) as [k Hframe].
    destruct (_get_operating_time_date E depth machine w) as [[date|e'] w1];
      simpl in *; [done |].
    intros [= <- <-]. subst w1. split.
    + destruct Hinv as (? & ? & ? & ?). by repeat split.
    + intros e [= <-]. by destruct Hout as [[? ?] | [= ->]].
Qed.

(** X27. A seeding fixture that does not complete has raised
    [RecursionError] and nothing else; the rows it appended before are
    still in the table (nothing is rolled back), with (date, machine) pairs
    that differ from one another and from those the table held. *)
Theorem fixtures_abort_keeps_rows (E : env) (depth : nat) (w w' : world)
    (e : exn) :
  (rotations E depth w = (Raise e, w') →
   e = RecursionError
   ∧ seeded_unique rotation_key (rotation_table w) (rotation_table w')
   ∧ operating_time_table w' = operating_time_table w)
  ∧ (operating_times E depth w = (Raise e, w') →
     e = RecursionError
     ∧ seeded_unique operating_time_key
         (operating_time_table w) (operating_time_table w')
     ∧ rotation_table w' = rotation_table w).
Proof.
  split; intros Hrun.
  - revert Hrun. unfold rotations, UserService_get_all_customers.
    unfold bind at 1, get at 1. unfold bind at 1, ret at 1. intros Hrun.
    apply (for_each_invariant_any (rotations_inv w) (λ e, e = RecursionError))
      in Hrun as [(? & ? & _) Hexn].
    + split; [by apply Hexn | done].
    + intros customer s o s' Hs.
      unfold CustomerMachine_query_filter.
      unfold bind at 1, get at 1. unfold bind at 1, ret at 1.
      apply (for_each_invariant_any (rotations_inv w)); [| done].
      intros machine s1 o1 s1' Hs1.
      apply (for_each_invariant_any (rotations_inv w)); [| done].
      intros i s2 o2 s2' Hs2. by apply seed_rotation_any.
    + repeat split; try done. apply seeded_unique_refl.
  - revert Hrun. unfold operating_times, UserService_get_all_customers.
    unfold bind at 1, get at 1. unfold bind at 1, ret at 1. intros Hrun.
    apply (for_each_invariant_any (operating_times_inv w)
             (λ e, e = RecursionError))
      in Hrun as [(? & ? & _) Hexn].
    + split; [by apply Hexn | done].
    + intros customer s o s' Hs.
      unfold CustomerMachine_query_filter.
      unfold bind at 1, get at 1. unfold bind at 1, ret at 1.
      apply (for_each_invariant_any (operating_times_inv w)); [| done].
      intros machine s1 o1 s1' Hs1.
      apply (for_each_invariant_any (operating_times_inv w)); [| done].
      intros i s2 o2 s2' Hs2. by apply seed_operating_time_any.
    + repeat split; try done. apply seeded_unique_refl.
Qed.

Lemma fixtures_abort_keeps_rows_witness :
  (operating_times sample_env 1 sample_world).1 = Raise RecursionError
  ∧ length (operating_time_table
              (operating_times sample_env 1 sample_world).2) = 1%nat
  ∧ seeded_unique operating_time_key (operating_time_table sample_world)
      (operating_time_table (operating_times sample_env 1 sample_world).2).
Proof.
  split; [vm_compute; reflexivity |]. split; [vm_compute; reflexivity |].
  destruct (fixtures_abort_keeps_rows sample_env 1 sample_world
              (operating_times sample_env 1 sample_world).2 RecursionError)
    as [_ Hot].
  apply Hot. vm_compute. reflexivity.
Defined.

Lemma for_each_skip {S A} (body : A → M S unit) (l : list A) (s : S) :
  (∀ x, x ∈ l → body x s = (Return tt, s)) →
  for_each l body s = (Return tt, s).
Proof.
  induction l as [|x l IH]; intros Hskip; [done |]. simpl.
  unfold bind. rewrite (Hskip x) by left.
  apply IH. intros y Hy. apply Hskip. by right.
Qed.

(** X28. With no customer, or with no machine, the fixtures seed nothing:
    they return with the world as it was, not a date drawn, even with no
    recursion depth to spare. *)
Theorem fixtures_nothing_to_seed (E : env) (depth : nat) (w : world) :
  customers w = [] ∨ customer_machines w = [] →
  rotations E depth w = (Return tt, w)
  ∧ operating_times E depth w = (Return tt, w).
Proof.
  intros Hnone.
  split; unfold rotations, operating_times, UserService_get_all_customers;
    unfold bind at 1, get at 1; unfold bind at 1, ret at 1;
    (destruct Hnone as [-> | Hmach]; [done |]);
    apply for_each_skip; intros customer _;
    unfold CustomerMachine_query_filter, bind, get, ret;
    by rewrite Hmach.
Qed.

Lemma fixtures_nothing_to_seed_witness :
  rotations stuck_env 0
    {| customers := [ {| user_id := 1 |} ]; customer_machines := [];
       rotation_table := []; operating_time_table := [];
       fake_drawn := 0; random_drawn := 0 |}
  = (Return tt,
     {| customers := [ {| user_id := 1 |} ]; customer_machines := [];
        rotation_table := []; operating_time_table := [];
        fake_drawn := 0; random_drawn := 0 |}).
Proof.
  apply (fixtures_nothing_to_seed stuck_env 0
           {| customers := [ {| user_id := 1 |} ]; customer_machines := [];
              rotation_table := []; operating_time_table := [];
              fake_drawn := 0; random_drawn := 0 |}).
  by right.
Defined.

End ConftestMore.
